(** * Pollaroo front end: the API client and the session store

    A shallow embedding of [frontend/src/lib/api.ts] (class [ApiClient]) and
    of [frontend/src/store/auth.ts] (the module-level session store), with
    the properties of the session/credential-token contract stated over it.

    TypeScript types are erased at run time, so the embedding works on
    JavaScript values: what [response.json()] yields is whatever the server
    sent, and the code inspects it through truthiness, property access,
    optional chaining and the [in] operator.

    An [async] function is a computation over the state of the process that
    completes normally or throws (its promise is fulfilled or rejected).
    Every [fetch] settles, and the operations of the store run one after
    the other; overlapping calls are not described here. *)

From Stdlib Require Import ZArith String Ascii List Bool.
From stdpp Require Import base option list strings gmap pretty.

Open Scope string_scope.
Open Scope Z_scope.

(** ** JavaScript values *)

Module Js.

(** The values that flow through the two modules: JSON data, plus
    [undefined].  Numbers are held as integers: the code looks at a number
    only through its truthiness and, when one reaches a string position,
    through its decimal numeral. *)
#[warnings="-register-all"] Inductive Value : Type :=
  | JUndefined
  | JNull
  | JBool (b : bool)
  | JNum (n : Z)
  | JStr (s : string)
  | JArr (items : list Value)
  | JObj (props : list (string * Value)).

(** The property names read by [api.ts] and [auth.ts].  None of them is an
    own or inherited property of an array, string, number or boolean. *)
Inductive PropName : Type :=
  | p_message | p_error | p_detail | p_user | p_tokens | p_access
  | p_username | p_response | p_data.

Definition prop_key (p : PropName) : string :=
  match p with
  | p_message => "message" | p_error => "error" | p_detail => "detail"
  | p_user => "user" | p_tokens => "tokens" | p_access => "access"
  | p_username => "username" | p_response => "response" | p_data => "data"
  end.

(** What can be thrown: an [Error] instance of some class, or any value. *)
Inductive ErrorClass : Type := TypeError | SyntaxError | ReferenceError | PlainError.

Inductive Thrown : Type :=
  | ThrownError (cls : ErrorClass) (message : string)
  | ThrownValue (v : Value).

(** ToBoolean. *)
Definition truthy (v : Value) : bool :=
  match v with
  | JUndefined | JNull => false
  | JBool b => b
  | JNum n => negb (n =? 0)
  | JStr s => negb (String.eqb s "")
  | JArr _ | JObj _ => true
  end.

Definition nullish (v : Value) : bool :=
  match v with JUndefined | JNull => true | _ => false end.

(** [a || b] *)
Definition or_else (a b : Value) : Value := if truthy a then a else b.

Fixpoint assoc (k : string) (props : list (string * Value)) : option Value :=
  match props with
  | [] => None
  | (k', v) :: rest => if String.eqb k k' then Some v else assoc k rest
  end.

(** Own property [v.p] of a value that is neither [null] nor [undefined]. *)
Definition own_prop (v : Value) (p : PropName) : Value :=
  match v with
  | JObj props => default JUndefined (assoc (prop_key p) props)
  | _ => JUndefined
  end.

(** [v?.p] *)
Definition opt_chain (v : Value) (p : PropName) : Value :=
  if nullish v then JUndefined else own_prop v p.

Definition join_with (sep : string) (parts : list string) : string :=
  match parts with
  | [] => ""
  | s :: rest => fold_left (fun acc t => acc ++ sep ++ t) rest s
  end.

(** ToString, as used by template literals and by [localStorage.setItem],
    on the values the program converts: strings, [null], [undefined],
    booleans, integers below 10^21 in absolute value (from there on the
    engine writes a number in exponent form, which [JNum] does not), and
    arrays and plain objects of these without an own [toString] or
    [valueOf] key (with one, the conversion throws).  Tokens are strings,
    and the statements about the stored text of a token are made for
    strings. *)
Fixpoint to_string (v : Value) : string :=
  match v with
  | JUndefined => "undefined"
  | JNull => "null"
  | JBool true => "true"
  | JBool false => "false"
  | JNum n => pretty n
  | JStr s => s
  | JArr items =>
      join_with ","
        (map (fun x => if nullish x then "" else to_string x) items)
  | JObj _ => "[object Object]"
  end.

(** A computation either completes normally or throws; effects made before
    a throw stay in the state. *)
Inductive Completion (A : Type) : Type :=
  | Normal (a : A)
  | Throw (e : Thrown).
Arguments Normal {A} a.
Arguments Throw {A} e.

Definition M (S A : Type) : Type := S -> Completion A * S.

Definition ret {S A} (a : A) : M S A := fun s => (Normal a, s).

Definition throw {S A} (e : Thrown) : M S A := fun s => (Throw e, s).

Definition bind {S A B} (m : M S A) (k : A -> M S B) : M S B :=
  fun s =>
    match m s with
    | (Normal a, s') => k a s'
    | (Throw e, s') => (Throw e, s')
    end.

(** [try { m } catch (e) { h e }] *)
Definition try_catch {S A} (m : M S A) (h : Thrown -> M S A) : M S A :=
  fun s =>
    match m s with
    | (Normal a, s') => (Normal a, s')
    | (Throw e, s') => h e s'
    end.

Definition gets {S A} (f : S -> A) : M S A := fun s => (Normal (f s), s).

Definition modify {S} (f : S -> S) : M S unit := fun s => (Normal tt, f s).

(** Run [m] on a component of a larger state. *)
Definition zoom {S T A} (get : T -> S) (set : S -> T -> T) (m : M S A) : M T A :=
  fun t => let (r, s') := m (get t) in (r, set s' t).

(** [v.p]: throws on [null] and [undefined].  The text of the [TypeError]
    is the engine's choice; nothing below depends on it. *)
Definition get_prop {S} (v : Value) (p : PropName) : M S Value :=
  if nullish v
  then throw (ThrownError TypeError
                ("Cannot read properties of " ++ to_string v))
  else ret (own_prop v p).

(** ['k' in v]: throws unless [v] is an object. *)
Definition has_prop {S} (p : PropName) (v : Value) : M S bool :=
  match v with
  | JObj props => ret (bool_decide (is_Some (assoc (prop_key p) props)))
  | JArr _ => ret false
  | _ => throw (ThrownError TypeError
                  ("Cannot use 'in' operator to search for a key in "
                   ++ to_string v))
  end.

(** [e?.p] for a caught value [e]. *)
Definition thrown_chain (e : Thrown) (p : PropName) : Value :=
  match e with
  | ThrownError _ msg =>
      match p with p_message => JStr msg | _ => JUndefined end
  | ThrownValue v => opt_chain v p
  end.

End Js.

Import Js.

Declare Scope js_scope.
Delimit Scope js_scope with js.
Notation "x <- m ;; k" := (bind m (fun x => k))
  (at level 100, m at next level, right associativity) : js_scope.
Notation "m ;;; k" := (bind m (fun _ => k))
  (at level 100, right associativity) : js_scope.
Open Scope js_scope.

(** ** The environment of the client: storage and network *)

(** [RequestInit] as the endpoint methods build it.  [opt_body] holds the
    value handed to [JSON.stringify]. *)
Record RequestInit : Type := {
  opt_method : option string;
  opt_body : option Value;
  opt_headers : gmap string string
}.

Definition no_options : RequestInit :=
  {| opt_method := None; opt_body := None; opt_headers := ∅ |}.

Definition post (payload : option Value) : RequestInit :=
  {| opt_method := Some "POST"; opt_body := payload; opt_headers := ∅ |}.

Definition put (payload : option Value) : RequestInit :=
  {| opt_method := Some "PUT"; opt_body := payload; opt_headers := ∅ |}.

(** One call of [fetch], as the network saw it. *)
Record Request : Type := {
  req_url : string;
  req_method : option string;
  req_headers : gmap string string;
  req_body : option Value
}.

Definition authorization (r : Request) : option string :=
  req_headers r !! "Authorization".

(** What the outside world answers to one [fetch]: the promise rejects, or
    a response arrives whose body parses as JSON or does not. *)
Inductive BodyOutcome : Type :=
  | Parsed (v : Value)
  | Unparsable (e : Thrown).

Inductive FetchOutcome : Type :=
  | FetchRejects (e : Thrown)
  | FetchResponds (status : Z) (body : BodyOutcome).

(** [response.ok] *)
Definition status_ok (status : Z) : bool := (200 <=? status) && (status <=? 299).

(** Fields of the [ApiClient] instance. *)
Record ApiClient : Type := {
  baseURL : string;
  token : Value
}.

(** The process as the client sees it: whether [window] is defined, the
    [apiClient] singleton, [localStorage], and the requests sent so far
    (oldest first). *)
Record Env : Type := {
  browser : bool;
  client : ApiClient;
  localStorage : gmap string string;
  network : list Request
}.

Definition set_token (t : Value) (e : Env) : Env :=
  {| browser := browser e;
     client := {| baseURL := baseURL (client e); token := t |};
     localStorage := localStorage e;
     network := network e |}.

Definition set_localStorage (ls : gmap string string) (e : Env) : Env :=
  {| browser := browser e; client := client e;
     localStorage := ls; network := network e |}.

Definition log_request (r : Request) (e : Env) : Env :=
  {| browser := browser e; client := client e;
     localStorage := localStorage e; network := network e ++ [r] |}.

(** The global [localStorage] exists in the browser only; elsewhere the
    identifier is unbound. *)
Definition storage_guard : M Env unit :=
  fun e =>
    if browser e then (Normal tt, e)
    else (Throw (ThrownError ReferenceError "localStorage is not defined"), e).

Definition getItem (k : string) : M Env Value :=
  storage_guard ;;;
  gets (fun e => match localStorage e !! k with
                 | Some s => JStr s
                 | None => JNull
                 end).

Definition setItem (k : string) (v : Value) : M Env unit :=
  storage_guard ;;;
  modify (fun e => set_localStorage (<[k := to_string v]> (localStorage e)) e).

Definition removeItem (k : string) : M Env unit :=
  storage_guard ;;;
  modify (fun e => set_localStorage (delete k (localStorage e)) e).

(** [fetch(url, {...options, headers})] followed by [response.json()]. *)
Definition fetch (url : string) (options : RequestInit)
    (headers : gmap string string) (o : FetchOutcome) : M Env (Z * Value) :=
  modify (log_request {| req_url := url; req_method := opt_method options;
                         req_headers := headers; req_body := opt_body options |}) ;;;
  match o with
  | FetchRejects e => throw e
  | FetchResponds status (Unparsable e) => throw e
  | FetchResponds status (Parsed v) => ret (status, v)
  end.

(** [interface ApiResponse<T>] *)
Module Response.

Record ApiResponse : Type := {
  data : Value;
  error : Value;
  message : Value
}.

(** [{ data }] *)
Definition with_data (d : Value) : ApiResponse :=
  {| data := d; error := JUndefined; message := JUndefined |}.

(** [{ error: m }] *)
Definition with_error (m : Value) : ApiResponse :=
  {| data := JUndefined; error := m; message := JUndefined |}.

End Response.

Abbreviation ApiResponse := Response.ApiResponse.

(** ** [frontend/src/lib/api.ts]: class [ApiClient] *)

Module ApiClientTs.

Definition API_BASE_URL : string := "http://localhost:8000/api".

(** [new ApiClient(baseURL)]: the token is read from storage when [window]
    is defined and stays [null] otherwise. *)
Definition construct (base : string) (in_browser : bool)
    (ls : gmap string string) : Env :=
  {| browser := in_browser;
     client := {| baseURL := base;
                  token := if in_browser
                           then match ls !! "access_token" with
                                | Some s => JStr s
                                | None => JNull
                                end
                           else JNull |};
     localStorage := ls;
     network := [] |}.

Definition setToken (t : Value) : M Env unit :=
  modify (set_token t) ;;;
  w <- gets browser ;;
  if w then setItem "access_token" t else ret tt.

Definition clearToken : M Env unit :=
  modify (set_token JNull) ;;;
  w <- gets browser ;;
  if w then removeItem "access_token" else ret tt.

(** The headers of an outgoing request: the JSON content type, overridden
    by [options.headers], and the bearer token when [this.token] is truthy. *)
Definition build_headers (c : ApiClient) (options : RequestInit)
    : gmap string string :=
  let headers := opt_headers options ∪ {[ "Content-Type" := "application/json" ]} in
  if truthy (token c)
  then <[ "Authorization" := "Bearer " ++ to_string (token c) ]> headers
  else headers.

(** [private async request<T>(endpoint, options)] *)
Definition request (endpoint : string) (options : RequestInit)
    (o : FetchOutcome) : M Env ApiResponse :=
  c <- gets client ;;
  let url := baseURL c ++ endpoint in
  let headers := build_headers c options in
  try_catch
    (r <- fetch url options headers o ;;
     let '(status, d) := r in
     if negb (status_ok status)
     then
       m <- get_prop d p_message ;;
       msg <- (if truthy m then ret m
               else e <- get_prop d p_error ;;
                    ret (or_else e (JStr "An error occurred"))) ;;
       ret (Response.with_error msg)
     else ret (Response.with_data d))
    (fun _ => ret (Response.with_error (JStr "Network error occurred"))).

Definition register (userData : Value) (o : FetchOutcome) : M Env ApiResponse :=
  request "/auth/register/" (post (Some userData)) o.

Definition login (credentials : Value) (o : FetchOutcome) : M Env ApiResponse :=
  response <- request "/auth/login/" (post (Some credentials)) o ;;
  let access := opt_chain (opt_chain (Response.data response) p_tokens) p_access in
  (if truthy access then setToken access else ret tt) ;;;
  ret response.

Definition logout (o : FetchOutcome) : M Env ApiResponse :=
  response <- request "/auth/logout/" (post None) o ;;
  clearToken ;;;
  ret response.

Definition getProfile (o : FetchOutcome) : M Env ApiResponse :=
  request "/auth/profile/" no_options o.

Definition updateProfile (userData : Value) (o : FetchOutcome) : M Env ApiResponse :=
  request "/auth/me/update/" (put (Some userData)) o.

(** [getPolls(params)], given the text [query] that
    [searchParams.toString()] yields for [params]. *)
Definition getPolls (query : string) (o : FetchOutcome) : M Env ApiResponse :=
  request ("/polls/" ++ (if String.eqb query "" then "" else "?" ++ query))
    no_options o.

(** Poll endpoints whose path is a plain template over a numeric id. *)
Definition getPoll (id : Z) (o : FetchOutcome) : M Env ApiResponse :=
  request ("/polls/" ++ pretty id ++ "/") no_options o.

Definition createPoll (pollData : Value) (o : FetchOutcome) : M Env ApiResponse :=
  request "/polls/create/" (post (Some pollData)) o.

Definition updatePoll (id : Z) (pollData : Value) (o : FetchOutcome)
    : M Env ApiResponse :=
  request ("/polls/" ++ pretty id ++ "/update/") (put (Some pollData)) o.

Definition deletePoll (id : Z) (o : FetchOutcome) : M Env ApiResponse :=
  request ("/polls/" ++ pretty id ++ "/delete/")
    {| opt_method := Some "DELETE"; opt_body := None; opt_headers := ∅ |} o.

Definition getUserPolls (o : FetchOutcome) : M Env ApiResponse :=
  request "/polls/my-polls/" no_options o.

Definition vote (pollId optionId : Z) (o : FetchOutcome) : M Env ApiResponse :=
  request ("/polls/" ++ pretty pollId ++ "/vote/")
    (post (Some (JObj [("option_id", JNum optionId)]))) o.

Definition getPollResults (pollId : Z) (o : FetchOutcome) : M Env ApiResponse :=
  request ("/polls/" ++ pretty pollId ++ "/results/") no_options o.

Definition getPollShareLink (pollId : Z) (o : FetchOutcome) : M Env ApiResponse :=
  request ("/polls/" ++ pretty pollId ++ "/share/") no_options o.

End ApiClientTs.

(** ** [frontend/src/store/auth.ts]: the session store *)

Module AuthStore.

(** [interface AuthState] *)
Record AuthState : Type := {
  user : Value;
  isAuthenticated : bool;
  isLoading : bool;
  error : Value
}.

Definition set_user (u : Value) (s : AuthState) : AuthState :=
  {| user := u; isAuthenticated := isAuthenticated s;
     isLoading := isLoading s; error := error s |}.

Definition set_isAuthenticated (b : bool) (s : AuthState) : AuthState :=
  {| user := user s; isAuthenticated := b;
     isLoading := isLoading s; error := error s |}.

Definition set_isLoading (b : bool) (s : AuthState) : AuthState :=
  {| user := user s; isAuthenticated := isAuthenticated s;
     isLoading := b; error := error s |}.

Definition set_error (m : Value) (s : AuthState) : AuthState :=
  {| user := user s; isAuthenticated := isAuthenticated s;
     isLoading := isLoading s; error := m |}.

(** [let state: AuthState = {...}] *)
Definition initial_state : AuthState :=
  {| user := JNull; isAuthenticated := false; isLoading := false; error := JNull |}.

Inductive ToastKind : Type := toast_success | toast_error | toast_warning.

Record Toast : Type := { toast_kind : ToastKind; toast_text : string }.

(** The module's world: the client's environment, the [state] variable,
    every value assigned to [state] so far and every snapshot the listeners
    were notified of (both oldest first), and the toasts shown. *)
Record World : Type := {
  env : Env;
  state : AuthState;
  assigned : list AuthState;
  notified : list AuthState;
  toasts : list Toast
}.

Definition set_env (e : Env) (w : World) : World :=
  {| env := e; state := state w; assigned := assigned w;
     notified := notified w; toasts := toasts w |}.

(** [state = f(state)] *)
Definition assign (f : AuthState -> AuthState) : M World unit :=
  modify (fun w =>
    let s := f (state w) in
    {| env := env w; state := s; assigned := assigned w ++ [s];
       notified := notified w; toasts := toasts w |}).

(** [notify()]: every listener re-reads the current [state]. *)
Definition notify : M World unit :=
  modify (fun w =>
    {| env := env w; state := state w; assigned := assigned w;
       notified := notified w ++ [state w]; toasts := toasts w |}).

Definition toast (k : ToastKind) (text : string) : M World unit :=
  modify (fun w =>
    {| env := env w; state := state w; assigned := assigned w;
       notified := notified w;
       toasts := toasts w ++ [{| toast_kind := k; toast_text := text |}] |}).

(** A call into the client or into [localStorage]. *)
Definition call {A} (m : M Env A) : M World A := zoom env set_env m.

(** The methods of the imported [apiClient] that the store awaits, each
    already paired with what the remote side will answer. *)
Record ApiMethods : Type := {
  api_login : Value -> M Env ApiResponse;
  api_register : Value -> M Env ApiResponse;
  api_logout : M Env ApiResponse;
  api_getProfile : M Env ApiResponse;
  api_updateProfile : Value -> M Env ApiResponse
}.

(** [error?.response?.data?.error || error?.message || 'Network error occurred'] *)
Definition caught_message (e : Thrown) : Value :=
  or_else
    (or_else (opt_chain (opt_chain (thrown_chain e p_response) p_data) p_error)
             (thrown_chain e p_message))
    (JStr "Network error occurred").

Section Actions.

Variable apiClient : ApiMethods.

(** The body shared by [login] and [register]: they differ in the client
    method awaited and in the texts shown. *)
Definition authenticate (remote : M Env ApiResponse)
    (welcome : string) (fallback : string) (failed : string) : M World bool :=
  assign (fun s => set_error JNull (set_isLoading true s)) ;;;
  notify ;;;
  try_catch
    (response <- call remote ;;
     found <- (if truthy (Response.data response)
               then has_prop p_user (Response.data response)
               else ret false) ;;
     if (found : bool)
     then
       u <- get_prop (Response.data response) p_user ;;
       assign (fun s =>
         set_error JNull (set_isLoading false (set_isAuthenticated true (set_user u s)))) ;;;
       name <- get_prop u p_username ;;
       toast toast_success (welcome ++ to_string name ++ "!") ;;;
       notify ;;;
       ret true
     else
       let errorMessage := or_else (Response.error response) (JStr fallback) in
       assign (fun s => set_isLoading false (set_error errorMessage s)) ;;;
       toast toast_error (failed ++ to_string errorMessage) ;;;
       notify ;;;
       ret false)
    (fun e =>
       let errorMessage := caught_message e in
       assign (fun s => set_isLoading false (set_error errorMessage s)) ;;;
       toast toast_error (failed ++ to_string errorMessage) ;;;
       notify ;;;
       ret false).

Definition login (credentials : Value) : M World bool :=
  authenticate (api_login apiClient credentials)
    "Welcome back, " "Login failed" "Login Failed: ".

Definition register (userData : Value) : M World bool :=
  authenticate (api_register apiClient userData)
    "Welcome to Pollaroo, " "Registration failed" "Registration Failed: ".

Definition logout : M World unit :=
  assign (set_isLoading true) ;;;
  notify ;;;
  try_catch
    (call (api_logout apiClient) ;;;
     toast toast_success "You have been successfully logged out.")
    (fun _ => toast toast_warning "Logged out locally, but server logout failed.") ;;;
  assign (fun s =>
    set_error JNull (set_isLoading false (set_isAuthenticated false (set_user JNull s)))) ;;;
  notify.

Definition loadUser : M World unit :=
  tok <- call (getItem "access_token") ;;
  if negb (truthy tok)
  then
    assign (fun s => set_isLoading false (set_isAuthenticated false (set_user JNull s))) ;;;
    notify
  else
    assign (set_isLoading true) ;;;
    notify ;;;
    try_catch
      (response <- call (api_getProfile apiClient) ;;
       if truthy (Response.data response)
       then
         assign (fun s =>
           set_error JNull (set_isLoading false
             (set_isAuthenticated true (set_user (Response.data response) s))))
       else
         call (removeItem "access_token") ;;;
         call (removeItem "refresh_token") ;;;
         assign (fun s =>
           set_isLoading false (set_isAuthenticated false (set_user JNull s))))
      (fun e =>
         call (removeItem "access_token") ;;;
         call (removeItem "refresh_token") ;;;
         assign (fun s =>
           set_error (or_else (thrown_chain e p_message) (JStr "Failed to load user"))
             (set_isLoading false (set_isAuthenticated false (set_user JNull s))))) ;;;
    notify.

Definition updateProfile (userData : Value) : M World bool :=
  assign (fun s => set_error JNull (set_isLoading true s)) ;;;
  notify ;;;
  try_catch
    (response <- call (api_updateProfile apiClient userData) ;;
     if truthy (Response.data response)
     then
       assign (fun s =>
         set_error JNull (set_isLoading false (set_user (Response.data response) s))) ;;;
       notify ;;;
       ret true
     else
       assign (fun s =>
         set_isLoading false
           (set_error (or_else (Response.error response) (JStr "Update failed")) s)) ;;;
       notify ;;;
       ret false)
    (fun _ =>
       assign (fun s => set_isLoading false (set_error (JStr "Network error occurred") s)) ;;;
       notify ;;;
       ret false).

Definition clearError : M World unit :=
  assign (set_error JNull) ;;;
  notify.

End Actions.

End AuthStore.

(** ** The second copy of [ApiClient]

    The repository carries a second, later copy of the client class (the
    text that follows the validation schemas in
    [frontend/src/lib/validations.ts]).  Its constructor, [setToken],
    [clearToken] and endpoint methods are those of [api.ts]; its request
    primitive differs and is embedded here for comparison. *)

Module ApiClientV2.

(** [s.includes(needle)] *)
Definition includes (needle s : string) : bool :=
  bool_decide (is_Some (String.index 0 needle s)).

(** The message of the [catch] branch. *)
Definition transport_message (e : Thrown) : string :=
  match e with
  | ThrownError TypeError msg =>
      if includes "fetch" msg
      then "Cannot connect to server. Please check if the backend server is running."
      else "Network error: " ++ msg
  | ThrownError _ msg => "Network error: " ++ msg
  | ThrownValue _ => "Network error: Unknown error"
  end.

Definition request (endpoint : string) (options : RequestInit)
    (o : FetchOutcome) : M Env ApiResponse :=
  c <- gets client ;;
  let url := baseURL c ++ endpoint in
  let headers := ApiClientTs.build_headers c options in
  try_catch
    (r <- fetch url options headers o ;;
     let '(status, d) := r in
     if negb (status_ok status)
     then
       if status =? 401
       then
         ApiClientTs.clearToken ;;;
         ret (Response.with_error (JStr "Authentication expired. Please log in again."))
       else if 500 <=? status
       then ret (Response.with_error (JStr "Server error. Please try again later."))
       else if status =? 404
       then ret (Response.with_error (JStr "Endpoint not found."))
       else
         m <- get_prop d p_message ;;
         e <- get_prop d p_error ;;
         dt <- get_prop d p_detail ;;
         ret (Response.with_error
                (or_else (or_else (or_else m e) dt)
                   (JStr ("Request failed with status " ++ pretty status))))
     else ret (Response.with_data d))
    (fun e => ret (Response.with_error (JStr (transport_message e)))).

Definition getProfile (o : FetchOutcome) : M Env ApiResponse :=
  request "/auth/profile/" no_options o.

End ApiClientV2.

(** ** The store wired to the client of [api.ts] *)

(** [import { apiClient } from '@/lib/api']: the store's calls land in the
    methods of [ApiClientTs]; [o] is what the network answers to the one
    [fetch] the awaited method performs. *)
Definition apiClient (o : FetchOutcome) : AuthStore.ApiMethods :=
  {| AuthStore.api_login := fun credentials => ApiClientTs.login credentials o;
     AuthStore.api_register := fun userData => ApiClientTs.register userData o;
     AuthStore.api_logout := ApiClientTs.logout o;
     AuthStore.api_getProfile := ApiClientTs.getProfile o;
     AuthStore.api_updateProfile := fun userData => ApiClientTs.updateProfile userData o |}.

(** The six operations the hook hands out. *)
Inductive Action : Type :=
  | Login (credentials : Value)
  | Register (userData : Value)
  | Logout
  | LoadUser
  | UpdateProfile (userData : Value)
  | ClearError.

(** One operation run to completion against [remote]. *)
Definition run_action (remote : AuthStore.ApiMethods) (a : Action)
    (w : AuthStore.World) : AuthStore.World :=
  match a with
  | Login credentials => snd (AuthStore.login remote credentials w)
  | Register userData => snd (AuthStore.register remote userData w)
  | Logout => snd (AuthStore.logout remote w)
  | LoadUser => snd (AuthStore.loadUser remote w)
  | UpdateProfile userData => snd (AuthStore.updateProfile remote userData w)
  | ClearError => snd (AuthStore.clearError w)
  end.

(** A session: operations run one after the other, each with the answer
    the network gives it. *)
Definition run_session (steps : list (Action * FetchOutcome))
    (w : AuthStore.World) : AuthStore.World :=
  fold_left (fun acc step => run_action (apiClient (snd step)) (fst step) acc) steps w.

(** The world at page load: the module-level initialisers have run. *)
Definition boot (in_browser : bool) (ls : gmap string string) : AuthStore.World :=
  {| AuthStore.env := ApiClientTs.construct ApiClientTs.API_BASE_URL in_browser ls;
     AuthStore.state := AuthStore.initial_state;
     AuthStore.assigned := [];
     AuthStore.notified := [];
     AuthStore.toasts := [] |}.

(** The first value an operation assigns to [state], if it assigns any. *)
Definition first_mutation {A} (op : M AuthStore.World A) (w : AuthStore.World)
    : option AuthStore.AuthState :=
  AuthStore.assigned (snd (op w)) !! length (AuthStore.assigned w).

(** The requests an operation on the environment sends. *)
Definition sent {A} (op : M Env A) (e : Env) : list Request :=
  drop (length (network e)) (network (snd (op e))).

(** The profile fetch does not deliver a profile: the request is rejected,
    the body is not JSON, or the status is outside 200..299. *)
Definition fetch_fails (o : FetchOutcome) : bool :=
  match o with
  | FetchRejects _ => true
  | FetchResponds _ (Unparsable _) => true
  | FetchResponds status (Parsed _) => negb (status_ok status)
  end.

(** ** Every endpoint method of the client *)

(** A call of one of the client's public endpoint methods. *)
Inductive Endpoint : Type :=
  | EpRegister (userData : Value)
  | EpLogin (credentials : Value)
  | EpLogout
  | EpGetProfile
  | EpUpdateProfile (userData : Value)
  | EpGetPolls (query : string)
  | EpGetPoll (id : Z)
  | EpCreatePoll (pollData : Value)
  | EpUpdatePoll (id : Z) (pollData : Value)
  | EpDeletePoll (id : Z)
  | EpGetUserPolls
  | EpVote (pollId optionId : Z)
  | EpGetPollResults (pollId : Z)
  | EpGetPollShareLink (pollId : Z).

Definition invoke (ep : Endpoint) (o : FetchOutcome) : M Env ApiResponse :=
  match ep with
  | EpRegister d => ApiClientTs.register d o
  | EpLogin c => ApiClientTs.login c o
  | EpLogout => ApiClientTs.logout o
  | EpGetProfile => ApiClientTs.getProfile o
  | EpUpdateProfile d => ApiClientTs.updateProfile d o
  | EpGetPolls q => ApiClientTs.getPolls q o
  | EpGetPoll id => ApiClientTs.getPoll id o
  | EpCreatePoll d => ApiClientTs.createPoll d o
  | EpUpdatePoll id d => ApiClientTs.updatePoll id d o
  | EpDeletePoll id => ApiClientTs.deletePoll id o
  | EpGetUserPolls => ApiClientTs.getUserPolls o
  | EpVote p c => ApiClientTs.vote p c o
  | EpGetPollResults p => ApiClientTs.getPollResults p o
  | EpGetPollShareLink p => ApiClientTs.getPollShareLink p o
  end.

(** The two methods that write [this.token] after their request. *)
Definition writes_token (ep : Endpoint) : bool :=
  match ep with EpLogin _ | EpLogout => true | _ => false end.


(** The request the primitive sends from environment [e]. *)
Definition outgoing (e : Env) (endpoint : string) (options : RequestInit) : Request :=
  {| req_url := baseURL (client e) ++ endpoint;
     req_method := opt_method options;
     req_headers := ApiClientTs.build_headers (client e) options;
     req_body := opt_body options |}.

(** The value of [localStorage.getItem('access_token')]. *)
Definition stored_token (e : Env) : Value :=
  match localStorage e !! "access_token" with
  | Some s => JStr s
  | None => JNull
  end.

(** The response has a truthy [data] that is an object with a [user] key. *)
Definition carries_user (r : ApiResponse) : bool :=
  truthy (Response.data r) &&
  match Response.data r with
  | JObj props => bool_decide (is_Some (assoc "user" props))
  | _ => false
  end.

(** The awaited client call brings no user: it throws, or it resolves to a
    response without one. *)
Definition call_fails (c : Completion ApiResponse) : bool :=
  match c with
  | Throw _ => true
  | Normal r => negb (carries_user r)
  end.

(** [isAuthenticated] agrees with [user != null]. *)
Definition consistent (s : AuthStore.AuthState) : bool :=
  Bool.eqb (AuthStore.isAuthenticated s) (negb (nullish (AuthStore.user s))).

(** What keeps a step clear of the one path that sets [user] alone: a
    [login] or [register] answer that carries a [user] key carries a user,
    and [updateProfile] is called on an authenticated session. *)
Definition step_ok (remote : AuthStore.ApiMethods) (a : Action)
    (w : AuthStore.World) : Prop :=
  match a with
  | Login c =>
      forall r, fst (AuthStore.api_login remote c (AuthStore.env w)) = Normal r ->
                carries_user r = true ->
                nullish (own_prop (Response.data r) p_user) = false
  | Register d =>
      forall r, fst (AuthStore.api_register remote d (AuthStore.env w)) = Normal r ->
                carries_user r = true ->
                nullish (own_prop (Response.data r) p_user) = false
  | UpdateProfile _ => AuthStore.isAuthenticated (AuthStore.state w) = true
  | _ => True
  end.

Fixpoint session_ok (steps : list (Action * FetchOutcome)) (w : AuthStore.World)
    : Prop :=
  match steps with
  | [] => True
  | step :: rest =>
      step_ok (apiClient (snd step)) (fst step) w
      /\ session_ok rest (run_action (apiClient (snd step)) (fst step) w)
  end.



(** ** Concrete sessions *)

Module Scenario.

Definition alice : Value :=
  JObj [("id", JNum 1); ("username", JStr "alice");
        ("email", JStr "alice@example.com"); ("bio", JStr "hi")].

Definition credentials : Value :=
  JObj [("username", JStr "alice"); ("password", JStr "secret123")].

Definition signup : Value :=
  JObj [("username", JStr "alice"); ("email", JStr "alice@example.com");
        ("password", JStr "secret123"); ("password_confirm", JStr "secret123")].

(** The body of a successful login or registration. *)
Definition auth_body : Value :=
  JObj [("user", alice);
        ("tokens", JObj [("access", JStr "tok1"); ("refresh", JStr "tok2")])].

Definition invalid_credentials : FetchOutcome :=
  FetchResponds 400 (Parsed (JObj [("error", JStr "Invalid credentials")])).

Definition unauthorized : FetchOutcome :=
  FetchResponds 401 (Parsed (JObj [("detail", JStr "Given token not valid")])).

Definition unreachable : FetchOutcome :=
  FetchRejects (ThrownError TypeError "Failed to fetch").

(** A page loaded in the browser with nothing in storage. *)
Definition fresh : AuthStore.World := boot true ∅.

(** A page loaded in the browser with a token left by an earlier visit. *)
Definition returning : AuthStore.World :=
  boot true {[ "access_token" := "tok1"; "refresh_token" := "tok2" ]}.

(** Logged in from a fresh page. *)
Definition logged_in : AuthStore.World :=
  run_session [(Login credentials, FetchResponds 200 (Parsed auth_body))] fresh.

(** A fresh page after a login that was refused. *)
Definition refused : AuthStore.World :=
  run_session [(Login credentials, invalid_credentials)] fresh.

End Scenario.

(** ** Further code: what a request delivers, and the pages that call in *)

(** What [response.data] holds after the primitive of [api.ts] has run
    against outcome [o]: the body of a 2xx answer that parsed, and
    [undefined] otherwise. *)
Definition delivered (o : FetchOutcome) : Value :=
  match o with
  | FetchResponds status (Parsed d) => if status_ok status then d else JUndefined
  | _ => JUndefined
  end.

(** The user a completed client call hands to [login] or [register]: the
    [user] of a response that carries one and whose [user] is not [null]. *)
Definition brings_user (c : Completion ApiResponse) : option Value :=
  match c with
  | Normal r =>
      if carries_user r && negb (nullish (own_prop (Response.data r) p_user))
      then Some (own_prop (Response.data r) p_user)
      else None
  | Throw _ => None
  end.

(** Storage [ls'] differs from [ls] at most in [access_token], and in
    [refresh_token] having been removed. *)
Definition storage_kept (ls ls' : gmap string string) : Prop :=
  forall k, k <> "access_token" ->
            ls' !! k = ls !! k \/ (k = "refresh_token" /\ ls' !! k = None).

(** The promise of an action resolved to [true]. *)
Definition resolved_true (c : Completion bool) : bool :=
  match c with
  | Normal true => true
  | _ => false
  end.

(** The listeners hold the current state: the snapshot of the last
    [notify()] is the value of [state]. *)
Definition listeners_current (w : AuthStore.World) : Prop :=
  last (AuthStore.notified w) = Some (AuthStore.state w).

Module Pages.

(** [frontend/src/app/dashboard/page.tsx], the effect that restores the
    session on mount: [loadUser()] is called only where [window] is defined
    and the storage holds a truthy token. *)
Definition restoreSession (remote : AuthStore.ApiMethods) : M AuthStore.World unit :=
  w <- gets (fun w => browser (AuthStore.env w)) ;;
  if (w : bool)
  then
    tok <- AuthStore.call (getItem "access_token") ;;
    if truthy tok then AuthStore.loadUser remote else ret tt
  else ret tt.



End Pages.

(** ** Text as the browser reads it

    A [string] stands for its sequence of UTF-16 code units, all of them
    below 256.  Of the white space of the language (tab, line feed,
    vertical tab, form feed, carriage return, space, no-break space and
    code points above 255) and of its line terminators (line feed, carriage
    return and two code points above 255), those in that range are: *)

Module Text.

Definition code (c : ascii) : nat := nat_of_ascii c.

Definition is_space (c : ascii) : bool :=
  let n := code c in
  ((9 <=? n) && (n <=? 13) || (n =? 32) || (n =? 160))%nat.

Definition is_line_terminator (c : ascii) : bool :=
  let n := code c in ((n =? 10) || (n =? 13))%nat.

Definition in_range (lo hi : ascii) (c : ascii) : bool :=
  ((code lo <=? code c) && (code c <=? code hi))%nat.

Definition is_char (x c : ascii) : bool := (code c =? code x)%nat.

Definition chars (s : string) : list ascii := list_ascii_of_string s.

(** [!s.trim()]: nothing but white space. *)
Definition blank (s : string) : bool := forallb is_space (chars s).

(** The code units before the first line terminator. *)
Fixpoint first_line (cs : list ascii) : list ascii :=
  match cs with
  | [] => []
  | c :: rest => if is_line_terminator c then [] else c :: first_line rest
  end.

End Text.

(** ** Regular expressions of [frontend/src/lib/validations.ts] *)

Module Regex.

(** The fragment the schemas use: character classes, sequence,
    alternation and repetition. *)
Inductive Re : Type :=
  | Eps
  | Class (p : ascii -> bool)
  | Cat (r1 r2 : Re)
  | Alt (r1 r2 : Re)
  | Star (r : Re).

Definition Plus (r : Re) : Re := Cat r (Star r).

Fixpoint nullable (r : Re) : bool :=
  match r with
  | Eps => true
  | Class _ => false
  | Cat r1 r2 => nullable r1 && nullable r2
  | Alt r1 r2 => nullable r1 || nullable r2
  | Star _ => true
  end.

(** The ways to go on after reading [c]: each entry is what is left to
    match; none when [c] cannot come next. *)
Fixpoint after (c : ascii) (r : Re) : list Re :=
  match r with
  | Eps => []
  | Class p => if p c then [Eps] else []
  | Cat r1 r2 =>
      map (fun r1' => Cat r1' r2) (after c r1)
      ++ (if nullable r1 then after c r2 else [])
  | Alt r1 r2 => after c r1 ++ after c r2
  | Star r0 => map (fun r' => Cat r' (Star r0)) (after c r0)
  end.

Definition step (c : ascii) (rs : list Re) : list Re := flat_map (after c) rs.

(** [/^r$/.test(s)] *)
Definition full_match (r : Re) (s : string) : bool :=
  existsb nullable (fold_left (fun rs c => step c rs) (Text.chars s) [r]).

(** [(?=r)] at the start of [s]: some prefix of [s] matches [r]. *)
Fixpoint lookahead_from (rs : list Re) (cs : list ascii) : bool :=
  existsb nullable rs
  || match cs with
     | [] => false
     | c :: cs' => lookahead_from (step c rs) cs'
     end.

Definition lookahead (r : Re) (s : string) : bool :=
  lookahead_from [r] (Text.chars s).

(** [.] *)
Definition dot : Re := Class (fun c => negb (Text.is_line_terminator c)).

(** The words an expression matches. *)
Inductive Matches : Re -> list ascii -> Prop :=
  | MEps : Matches Eps []
  | MClass p c : p c = true -> Matches (Class p) [c]
  | MCat r1 r2 w1 w2 : Matches r1 w1 -> Matches r2 w2 -> Matches (Cat r1 r2) (w1 ++ w2)
  | MAltL r1 r2 w : Matches r1 w -> Matches (Alt r1 r2) w
  | MAltR r1 r2 w : Matches r2 w -> Matches (Alt r1 r2) w
  | MStarNil r : Matches (Star r) []
  | MStarApp r w1 w2 :
      Matches r w1 -> Matches (Star r) w2 -> Matches (Star r) (w1 ++ w2).

End Regex.

Module Validations.

Import Regex.

(** [[a-zA-Z0-9_.-]] *)
Definition username_char (c : ascii) : bool :=
  Text.in_range "a"%char "z"%char c || Text.in_range "A"%char "Z"%char c
  || Text.in_range "0"%char "9"%char c
  || Text.is_char "_"%char c || Text.is_char "."%char c || Text.is_char "-"%char c.

(** [[^\s@]] *)
Definition email_char (c : ascii) : bool :=
  negb (Text.is_space c || Text.is_char "@"%char c).

(** [/^[a-zA-Z0-9_.-]+$/] *)
Definition username_re : Re := Plus (Class username_char).

(** [/^[^\s@]+@[^\s@]+\.[^\s@]+$/] *)
Definition email_re : Re :=
  Cat (Plus (Class email_char))
    (Cat (Class (Text.is_char "@"%char))
       (Cat (Plus (Class email_char))
          (Cat (Class (Text.is_char "."%char))
             (Plus (Class email_char))))).

(** The check of the [login] field: [isEmail || isValidUsername]. *)
Definition login_refine (value : string) : bool :=
  let isEmail := full_match email_re value in
  let isValidUsername := full_match username_re value in
  isEmail || isValidUsername.

(** [/^(?=.*[a-z])(?=.*[A-Z])(?=.*\d)/.test(value)] *)
Definition password_re_test (value : string) : bool :=
  lookahead (Cat (Star dot) (Class (Text.in_range "a"%char "z"%char))) value
  && lookahead (Cat (Star dot) (Class (Text.in_range "A"%char "Z"%char))) value
  && lookahead (Cat (Star dot) (Class (Text.in_range "0"%char "9"%char))) value.

(** [loginSchema]: every check of both fields passes. *)
Definition loginSchema (login password : string) : bool :=
  (1 <=? String.length login)%nat
  && login_refine login
  && (1 <=? String.length password)%nat
  && (6 <=? String.length password)%nat.

(** The [username] field of [registerSchema]. *)
Definition register_username (username : string) : bool :=
  (1 <=? String.length username)%nat
  && (3 <=? String.length username)%nat
  && (String.length username <=? 30)%nat
  && full_match username_re username.

(** The [password] field of [registerSchema]. *)
Definition register_password (password : string) : bool :=
  (1 <=? String.length password)%nat
  && (8 <=? String.length password)%nat
  && password_re_test password.

(** [registerSchema], given the library's own notion of an e-mail address
    for the [email] field. *)
Definition registerSchema (zod_email : string -> bool)
    (username email password password_confirm : string) : bool :=
  register_username username
  && ((1 <=? String.length email)%nat && zod_email email)
  && register_password password
  && (1 <=? String.length password_confirm)%nat
  && String.eqb password password_confirm.

End Validations.

(** ** [frontend/src/app/poll/[id]/results/page.tsx]: the winner *)

Module Results.

(** The fields of an option and of a poll that [getWinner] reads; counts
    are whole numbers. *)
Record PollOption : Type := {
  option_text : string;
  votes : option Z;
  vote_count : option Z
}.

Record Poll : Type := {
  total_votes : Z;
  poll_options : list PollOption
}.

(** [o.votes || o.vote_count || 0] *)
Definition tally (o : PollOption) : Z :=
  match votes o with
  | Some v => if v =? 0 then default 0 (vote_count o) else v
  | None => default 0 (vote_count o)
  end.

(** [(prev, current) => tally(prev) > tally(current) ? prev : current] *)
Definition better (prev current : PollOption) : PollOption :=
  if tally current <? tally prev then prev else current.

(** [array.reduce(f)] without an initial value. *)
Definition reduce {A} (f : A -> A -> A) (l : list A) : Completion A :=
  match l with
  | [] => Throw (ThrownError TypeError "Reduce of empty array with no initial value")
  | x :: rest => Normal (fold_left f rest x)
  end.

Definition getWinner (poll : option Poll) : Completion (option PollOption) :=
  match poll with
  | None => Normal None
  | Some p =>
      if total_votes p =? 0 then Normal None
      else match reduce better (poll_options p) with
           | Normal w => Normal (Some w)
           | Throw x => Throw x
           end
  end.

End Results.

(** ** [PollCreateModal] (the modal among the component sources): its
    option list and its submit handler *)

Module PollCreateModal.

Record Form : Type := {
  title : string;
  description : string;
  is_public : bool;
  expires_at : string
}.

Definition empty_form : Form :=
  {| title := ""; description := ""; is_public := true; expires_at := "" |}.

(** The component's state, the client's environment, and the calls made to
    the two callbacks it was given. *)
Record Modal : Type := {
  formData : Form;
  options : list string;
  isLoading : bool;
  error : Value;
  env : Env;
  created : list Value;
  closed : nat
}.

Definition setFormData (f : Form) : M Modal unit :=
  modify (fun m => {| formData := f; options := options m; isLoading := isLoading m;
                      error := error m; env := env m; created := created m;
                      closed := closed m |}).

Definition setOptions (l : list string) : M Modal unit :=
  modify (fun m => {| formData := formData m; options := l; isLoading := isLoading m;
                      error := error m; env := env m; created := created m;
                      closed := closed m |}).

Definition setIsLoading (b : bool) : M Modal unit :=
  modify (fun m => {| formData := formData m; options := options m; isLoading := b;
                      error := error m; env := env m; created := created m;
                      closed := closed m |}).

Definition setError (v : Value) : M Modal unit :=
  modify (fun m => {| formData := formData m; options := options m;
                      isLoading := isLoading m; error := v; env := env m;
                      created := created m; closed := closed m |}).

Definition onPollCreated (poll : Value) : M Modal unit :=
  modify (fun m => {| formData := formData m; options := options m;
                      isLoading := isLoading m; error := error m; env := env m;
                      created := created m ++ [poll]; closed := closed m |}).

Definition onClose : M Modal unit :=
  modify (fun m => {| formData := formData m; options := options m;
                      isLoading := isLoading m; error := error m; env := env m;
                      created := created m; closed := S (closed m) |}).

Definition call {A} (m : M Env A) : M Modal A :=
  zoom env (fun e m => {| formData := formData m; options := options m;
                          isLoading := isLoading m; error := error m; env := e;
                          created := created m; closed := closed m |}) m.

(** [try { m } finally { f }] *)
Definition try_finally {S A} (m : M S A) (f : M S unit) : M S A :=
  fun s =>
    let (c, s') := m s in
    match f s' with
    | (Normal _, s'') => (c, s'')
    | (Throw x, s'') => (Throw x, s'')
    end.

Definition handleClose : M Modal unit :=
  setFormData empty_form ;;;
  setOptions [""; ""] ;;;
  setError JNull ;;;
  onClose.

(** The new value [addOption] gives the option list. *)
Definition addOption (opts : list string) : list string :=
  if (length opts <? 10)%nat then opts ++ [""] else opts.

(** [options.filter((_, i) => i !== index)] *)
Definition without (index : nat) (opts : list string) : list string :=
  map snd
    (List.filter (fun p => negb (fst p =? index)%nat)
       (combine (seq 0 (length opts)) opts)).

Definition removeOption (index : nat) (opts : list string) : list string :=
  if (2 <? length opts)%nat then without index opts else opts.

(** [updateOption] for an index inside the list. *)
Definition updateOption (index : nat) (value : string) (opts : list string)
    : list string :=
  <[index := value]> opts.

(** The options that are not blank, as they were typed. *)
Definition validOptions (opts : list string) : list string :=
  List.filter (fun opt => negb (Text.blank opt)) opts.

(** The object handed to [createPoll]. *)
Definition payload (f : Form) (valid : list string) : Value :=
  JObj [("title", JStr (title f));
        ("description", or_else (JStr (description f)) JUndefined);
        ("options", JArr (map JStr valid));
        ("is_public", JBool (is_public f));
        ("expires_at", or_else (JStr (expires_at f)) JUndefined)].

Definition handleSubmit (o : FetchOutcome) : M Modal unit :=
  setError JNull ;;;
  m <- gets (fun m => m) ;;
  if Text.blank (title (formData m))
  then setError (JStr "Poll title is required")
  else
    let valid := validOptions (options m) in
    if (length valid <? 2)%nat
    then setError (JStr "At least 2 options are required")
    else
      setIsLoading true ;;;
      try_finally
        (try_catch
           (response <- call (ApiClientTs.createPoll (payload (formData m) valid) o) ;;
            if truthy (Response.data response)
            then onPollCreated (Response.data response) ;;; handleClose
            else setError (or_else (Response.error response)
                             (JStr "Failed to create poll")))
           (fun _ => setError (JStr "Network error occurred")))
        (setIsLoading false).

(** What the user does to the option list. *)
Inductive Edit : Type :=
  | Add
  | Remove (index : nat)
  | Update (index : nat) (value : string).

(** One edit; [None] for an update past the end of the list, which the
    rendered inputs never ask for and [updateOption] above leaves out. *)
Definition edit (e : Edit) (opts : list string) : option (list string) :=
  match e with
  | Add => Some (addOption opts)
  | Remove index => Some (removeOption index opts)
  | Update index value =>
      if (index <? length opts)%nat then Some (updateOption index value opts)
      else None
  end.

Fixpoint edits (es : list Edit) (opts : list string) : option (list string) :=
  match es with
  | [] => Some opts
  | e :: rest =>
      match edit e opts with
      | Some opts' => edits rest opts'
      | None => None
      end
  end.

End PollCreateModal.

(** * Properties *)

Ltac unfold_monad :=
  unfold bind, ret, throw, try_catch, gets, modify, zoom, get_prop, has_prop in *.

Ltac unfold_store :=
  unfold AuthStore.call, AuthStore.assign, AuthStore.notify, AuthStore.toast in *;
  unfold_monad.

Ltac unfold_storage :=
  unfold getItem, setItem, removeItem, storage_guard in *; unfold_monad.

(** ** The scenarios run as expected *)

Example logged_in_state :
  AuthStore.state Scenario.logged_in
  = {| AuthStore.user := Scenario.alice; AuthStore.isAuthenticated := true;
       AuthStore.isLoading := false; AuthStore.error := JNull |}
  /\ localStorage (AuthStore.env Scenario.logged_in) !! "access_token" = Some "tok1"
  /\ token (client (AuthStore.env Scenario.logged_in)) = JStr "tok1".
Proof. vm_compute. repeat split. Qed.

Example refused_state :
  AuthStore.state Scenario.refused
  = {| AuthStore.user := JNull; AuthStore.isAuthenticated := false;
       AuthStore.isLoading := false;
       AuthStore.error := JStr "Invalid credentials" |}.
Proof. reflexivity. Qed.

Example returning_loads_profile :
  AuthStore.state
    (run_session [(LoadUser, FetchResponds 200 (Parsed Scenario.alice))] Scenario.returning)
  = {| AuthStore.user := Scenario.alice; AuthStore.isAuthenticated := true;
       AuthStore.isLoading := false; AuthStore.error := JNull |}.
Proof. reflexivity. Qed.

(** A 200 answer whose [user] is [null] is taken for a success: the state
    is assigned first, then the welcome text fails to read [username]. *)
Example login_with_null_user :
  let w := run_session
             [(Login Scenario.credentials,
               FetchResponds 200 (Parsed (JObj [("user", JNull)])))]
             Scenario.fresh in
  AuthStore.state w
  = {| AuthStore.user := JNull; AuthStore.isAuthenticated := true;
       AuthStore.isLoading := false;
       AuthStore.error := JStr "Cannot read properties of null" |}.
Proof. reflexivity. Qed.

(** ** The request primitive of [api.ts] *)

Section RequestPrimitive.

Variables (endpoint : string) (options : RequestInit).

(** The primitive sends exactly one request and completes normally with a
    response object, whatever the network does; it touches neither the
    token nor the storage. *)
Lemma request_completes (o : FetchOutcome) (e : Env) :
  exists r, ApiClientTs.request endpoint options o e
            = (Normal r, log_request (outgoing e endpoint options) e).
Proof.
  unfold ApiClientTs.request, fetch, outgoing. unfold_monad. cbn.
  destruct o as [x | status [d | x]]; cbn; eauto.
  destruct (status_ok status); cbn; eauto.
  destruct d; cbn; eauto;
    match goal with
    | |- context [truthy ?v] => destruct (truthy v); cbn; eauto
    end.
Qed.

(** A failed fetch resolves to [{ error: m }] with a truthy [m]. *)
Lemma request_failure (o : FetchOutcome) (e : Env) :
  fetch_fails o = true ->
  exists m, fst (ApiClientTs.request endpoint options o e)
            = Normal (Response.with_error m) /\ truthy m = true.
Proof.
  unfold ApiClientTs.request, fetch. unfold_monad. cbn.
  destruct o as [x | status [d | x]]; cbn; eauto.
  intros ->. cbn.
  destruct d; cbn; eauto;
    match goal with
    | |- context [if truthy ?v then _ else _] =>
        destruct (truthy v) eqn:Hm; cbn; eauto
    end.
  unfold or_else.
  match goal with
  | |- context [if truthy ?v then _ else _] =>
      destruct (truthy v) eqn:He; cbn; eauto
  end.
Qed.

End RequestPrimitive.

(** ** Endpoint methods *)

Lemma setToken_completes (t : Value) (e : Env) :
  exists e', ApiClientTs.setToken t e = (Normal tt, e')
             /\ network e' = network e /\ browser e' = browser e
             /\ token (client e') = t.
Proof.
  unfold ApiClientTs.setToken. unfold_storage. cbn.
  destruct (browser e) eqn:Hb; cbn; rewrite ?Hb; cbn; eauto.
Qed.

Lemma clearToken_completes (e : Env) :
  exists e', ApiClientTs.clearToken e = (Normal tt, e')
             /\ network e' = network e /\ browser e' = browser e
             /\ token (client e') = JNull
             /\ (browser e = true -> localStorage e' !! "access_token" = None).
Proof.
  unfold ApiClientTs.clearToken. unfold_storage. cbn.
  destruct (browser e) eqn:Hb; cbn; rewrite ?Hb; cbn.
  - eexists; repeat split; try assumption. intros _. cbn. apply lookup_delete_eq.
  - eexists; repeat split; try assumption. discriminate.
Qed.

(** Every endpoint method completes normally after sending exactly one
    request, built from the environment it was called in; the methods other
    than [login] and [logout] do nothing else. *)
Lemma invoke_sends (ep : Endpoint) (o : FetchOutcome) (e : Env) :
  exists path options r e',
    invoke ep o e = (Normal r, e')
    /\ network e' = (network e ++ [outgoing e path options])%list
    /\ browser e' = browser e
    /\ (writes_token ep = false -> e' = log_request (outgoing e path options) e).
Proof.
  destruct ep; cbn [invoke writes_token];
    unfold ApiClientTs.register, ApiClientTs.login, ApiClientTs.logout,
      ApiClientTs.getProfile, ApiClientTs.updateProfile, ApiClientTs.getPolls,
      ApiClientTs.getPoll, ApiClientTs.createPoll, ApiClientTs.updatePoll,
      ApiClientTs.deletePoll, ApiClientTs.getUserPolls, ApiClientTs.vote,
      ApiClientTs.getPollResults, ApiClientTs.getPollShareLink;
    match goal with
    | |- context [ApiClientTs.request ?p ?opts o] =>
        destruct (request_completes p opts o e) as [r Hr];
        exists p, opts
    end;
    try (exists r; eexists; rewrite Hr; repeat split; reflexivity).
  - (* login *)
    unfold bind at 1. rewrite Hr. cbn iota.
    destruct (truthy (opt_chain (opt_chain (Response.data r) p_tokens) p_access)).
    + destruct (setToken_completes
                  (opt_chain (opt_chain (Response.data r) p_tokens) p_access)
                  (log_request (outgoing e "/auth/login/" (post (Some credentials))) e))
        as (e' & Hs & Hn & Hb & _).
      exists r, e'. unfold bind, ret. rewrite Hs. cbn.
      repeat split; try assumption. discriminate.
    + exists r. eexists. unfold bind, ret. cbn.
      repeat split.
  - (* logout *)
    unfold bind at 1. rewrite Hr. cbn iota.
    destruct (clearToken_completes
                (log_request (outgoing e "/auth/logout/" (post None)) e))
      as (e' & Hs & Hn & Hb & _).
    exists r, e'. unfold bind, ret. rewrite Hs. cbn.
    repeat split; try assumption. discriminate.
Qed.

(** ** The session store *)

Section StoreAgainstAnyClient.

Variable remote : AuthStore.ApiMethods.

(** [logout] settles the session whatever the awaited call does. *)
Lemma logout_settles (w : AuthStore.World) :
  exists w', AuthStore.logout remote w = (Normal tt, w')
    /\ AuthStore.user (AuthStore.state w') = JNull
    /\ AuthStore.isAuthenticated (AuthStore.state w') = false
    /\ AuthStore.error (AuthStore.state w') = JNull
    /\ AuthStore.isLoading (AuthStore.state w') = false.
Proof.
  unfold AuthStore.logout. unfold_store. cbn.
  destruct (AuthStore.api_logout remote (AuthStore.env w)) as [[r | x] e'];
    cbn; eexists; repeat split.
Qed.

(** C4.  [logout()] completes normally and leaves [user == null],
    [isAuthenticated == false], [error == null] and [isLoading == false],
    whatever the awaited [apiClient.logout()] does: resolve to a response
    with data, resolve to an error result, or throw. *)
Theorem logout_always_clears_session (w : AuthStore.World) :
  exists w', AuthStore.logout remote w = (Normal tt, w')
    /\ AuthStore.user (AuthStore.state w') = JNull
    /\ AuthStore.isAuthenticated (AuthStore.state w') = false
    /\ AuthStore.error (AuthStore.state w') = JNull
    /\ AuthStore.isLoading (AuthStore.state w') = false.
Proof. exact (logout_settles w). Qed.

(** Without a token in storage [loadUser] never reaches the client. *)
Lemma loadUser_no_token (w : AuthStore.World) :
  browser (AuthStore.env w) = true ->
  truthy (stored_token (AuthStore.env w)) = false ->
  AuthStore.loadUser remote w
  = (Normal tt,
     let s := AuthStore.set_isLoading false
                (AuthStore.set_isAuthenticated false
                   (AuthStore.set_user JNull (AuthStore.state w))) in
     {| AuthStore.env := AuthStore.env w;
        AuthStore.state := s;
        AuthStore.assigned := AuthStore.assigned w ++ [s];
        AuthStore.notified := AuthStore.notified w ++ [s];
        AuthStore.toasts := AuthStore.toasts w |}).
Proof.
  intros Hb Ht. unfold AuthStore.loadUser, stored_token in *.
  unfold_store. unfold_storage. cbn. rewrite Hb. cbn.
  destruct (localStorage (AuthStore.env w) !! "access_token") as [s|];
    cbn in *; [rewrite Ht|]; cbn; destruct w as [[] ? ? ? ?]; reflexivity.
Qed.

(** With a token in storage, a profile call that throws or resolves without
    truthy data makes [loadUser] remove both keys and settle
    unauthenticated, provided the call left [window] defined. *)
Lemma loadUser_no_profile (w : AuthStore.World) :
  browser (AuthStore.env w) = true ->
  truthy (stored_token (AuthStore.env w)) = true ->
  browser (snd (AuthStore.api_getProfile remote (AuthStore.env w))) = true ->
  match fst (AuthStore.api_getProfile remote (AuthStore.env w)) with
  | Normal r => truthy (Response.data r) = false
  | Throw _ => True
  end ->
  exists w', AuthStore.loadUser remote w = (Normal tt, w')
    /\ AuthStore.env w'
       = (let e' := snd (AuthStore.api_getProfile remote (AuthStore.env w)) in
          set_localStorage
            (delete "refresh_token" (delete "access_token" (localStorage e'))) e')
    /\ AuthStore.user (AuthStore.state w') = JNull
    /\ AuthStore.isAuthenticated (AuthStore.state w') = false
    /\ AuthStore.isLoading (AuthStore.state w') = false.
Proof.
  intros Hb Ht Hb' Hr. unfold AuthStore.loadUser, stored_token in *.
  unfold_store. unfold_storage. cbn. rewrite Hb. cbn.
  destruct (localStorage (AuthStore.env w) !! "access_token") as [s|];
    cbn in *; [rewrite Ht|discriminate]; cbn.
  destruct (AuthStore.api_getProfile remote (AuthStore.env w)) as [[r | x] e'];
    cbn in *; rewrite ?Hr; cbn; repeat (rewrite Hb'; cbn);
    eexists; repeat split.
Qed.

End StoreAgainstAnyClient.

Lemma truthy_or_else_str (v : Value) (s : string) :
  String.eqb s "" = false -> truthy (or_else v (JStr s)) = true.
Proof.
  intros Hs. unfold or_else. destruct (truthy v) eqn:Hv; [assumption|].
  cbn. now rewrite Hs.
Qed.

Lemma truthy_caught_message (x : Thrown) : truthy (AuthStore.caught_message x) = true.
Proof. unfold AuthStore.caught_message. now apply truthy_or_else_str. Qed.

(** The failure paths shared by [login] and [register]: when the awaited
    call throws or brings no user, the action resolves to [false], changes
    neither [user] nor [isAuthenticated], ends the loading phase and
    leaves a message in [error].  (A response whose [user] key holds [null],
    which [AuthResponse] rules out, is not among these: it takes the
    success branch, see [login_with_null_user].) *)
Lemma authenticate_failure (remote_call : M Env ApiResponse)
    (welcome fallback failed : string) (w : AuthStore.World) :
  String.eqb fallback "" = false ->
  call_fails (fst (remote_call (AuthStore.env w))) = true ->
  exists w',
    AuthStore.authenticate remote_call welcome fallback failed w = (Normal false, w')
    /\ AuthStore.user (AuthStore.state w') = AuthStore.user (AuthStore.state w)
    /\ AuthStore.isAuthenticated (AuthStore.state w')
       = AuthStore.isAuthenticated (AuthStore.state w)
    /\ AuthStore.isLoading (AuthStore.state w') = false
    /\ truthy (AuthStore.error (AuthStore.state w')) = true.
Proof.
  intros Hf Hc. unfold AuthStore.authenticate. unfold_store. cbn.
  destruct (remote_call (AuthStore.env w)) as [[r | x] e']; cbn in *.
  - unfold carries_user in Hc.
    destruct (Response.data r) as [| | [] | n | s | items | props]; cbn in *;
      try discriminate;
      try (eexists; repeat split;
           first [apply truthy_caught_message | now apply truthy_or_else_str]).
    + destruct (negb (n =? 0)); cbn;
        eexists; repeat split;
        first [apply truthy_caught_message | now apply truthy_or_else_str].
    + destruct (negb (s =? "")%string); cbn;
        eexists; repeat split;
        first [apply truthy_caught_message | now apply truthy_or_else_str].
    + change (prop_key p_user) with "user".
      destruct (assoc "user" props) eqn:Hu; cbn in *.
      * discriminate.
      * eexists; repeat split. now apply truthy_or_else_str.
  - eexists; repeat split. apply truthy_caught_message.
Qed.

(** C9, as stated, fails: a login answered with 200 and [{ user: null }]
    fails -- it resolves to [false], through the [catch] -- after the
    success branch has assigned the state.  From a fresh page
    [isAuthenticated] turns [true]; from a session that was logged in the
    user is lost. *)
Lemma failed_login_with_null_user_changes_session :
  let o := FetchResponds 200 (Parsed (JObj [("user", JNull)])) in
  let on_fresh := AuthStore.login (apiClient o) Scenario.credentials Scenario.fresh in
  let on_session :=
    AuthStore.login (apiClient o) Scenario.credentials Scenario.logged_in in
  fst on_fresh = Normal false
  /\ AuthStore.isAuthenticated (AuthStore.state Scenario.fresh) = false
  /\ AuthStore.isAuthenticated (AuthStore.state (snd on_fresh)) = true
  /\ fst on_session = Normal false
  /\ AuthStore.user (AuthStore.state Scenario.logged_in) = Scenario.alice
  /\ AuthStore.user (AuthStore.state (snd on_session)) = JNull
  /\ AuthStore.user (AuthStore.state (snd on_session))
     <> AuthStore.user (AuthStore.state Scenario.logged_in).
Proof. repeat (split; [reflexivity|]). discriminate. Qed.

(** C9, amended.  A [login] or [register] call whose awaited client call
    throws, or resolves to a response with no truthy data or whose data has
    no [user] key, resolves to [false] and leaves [user] and
    [isAuthenticated] as they were before the call (a session that was
    authenticated stays so); these failure paths change only [isLoading],
    which ends [false], and [error], which ends with a message. *)
Theorem failed_login_register_keep_session
    (remote : AuthStore.ApiMethods) (payload : Value) (w : AuthStore.World) :
  (call_fails (fst (AuthStore.api_login remote payload (AuthStore.env w))) = true ->
   exists w',
     AuthStore.login remote payload w = (Normal false, w')
     /\ AuthStore.user (AuthStore.state w') = AuthStore.user (AuthStore.state w)
     /\ AuthStore.isAuthenticated (AuthStore.state w')
        = AuthStore.isAuthenticated (AuthStore.state w)
     /\ AuthStore.isLoading (AuthStore.state w') = false
     /\ truthy (AuthStore.error (AuthStore.state w')) = true)
  /\
  (call_fails (fst (AuthStore.api_register remote payload (AuthStore.env w))) = true ->
   exists w',
     AuthStore.register remote payload w = (Normal false, w')
     /\ AuthStore.user (AuthStore.state w') = AuthStore.user (AuthStore.state w)
     /\ AuthStore.isAuthenticated (AuthStore.state w')
        = AuthStore.isAuthenticated (AuthStore.state w)
     /\ AuthStore.isLoading (AuthStore.state w') = false
     /\ truthy (AuthStore.error (AuthStore.state w')) = true).
Proof.
  split; intros Hc; unfold AuthStore.login, AuthStore.register;
    now apply authenticate_failure.
Qed.

(** C7.  [loadUser()] called in the browser with no [access_token] in
    storage completes at once: the environment, and with it the list of
    requests sent, is what it was (no network call, whatever client the
    store is wired to), a single state is assigned, and it has
    [isAuthenticated == false], [user == null], [isLoading == false]. *)
Theorem loadUser_without_token_stays_local
    (remote : AuthStore.ApiMethods) (w : AuthStore.World) :
  browser (AuthStore.env w) = true ->
  localStorage (AuthStore.env w) !! "access_token" = None ->
  exists w', AuthStore.loadUser remote w = (Normal tt, w')
    /\ AuthStore.env w' = AuthStore.env w
    /\ network (AuthStore.env w') = network (AuthStore.env w)
    /\ AuthStore.assigned w' = (AuthStore.assigned w ++ [AuthStore.state w'])%list
    /\ AuthStore.isAuthenticated (AuthStore.state w') = false
    /\ AuthStore.user (AuthStore.state w') = JNull
    /\ AuthStore.isLoading (AuthStore.state w') = false.
Proof.
  intros Hb Hn. eexists. split.
  - apply loadUser_no_token; [assumption|].
    unfold stored_token. now rewrite Hn.
  - cbn. repeat split.
Qed.

(** An empty string under the key counts as no token as well. *)
Lemma loadUser_empty_token_stays_local
    (remote : AuthStore.ApiMethods) (w : AuthStore.World) :
  browser (AuthStore.env w) = true ->
  localStorage (AuthStore.env w) !! "access_token" = Some "" ->
  AuthStore.env (snd (AuthStore.loadUser remote w)) = AuthStore.env w.
Proof.
  intros Hb Hn. rewrite loadUser_no_token; [reflexivity|assumption|].
  unfold stored_token. now rewrite Hn.
Qed.

Lemma stored_token_truthy (e : Env) (t : string) :
  localStorage e !! "access_token" = Some t -> t <> "" ->
  truthy (stored_token e) = true.
Proof.
  intros Hl Ht. unfold stored_token. rewrite Hl. cbn.
  apply negb_true_iff. now apply String.eqb_neq.
Qed.

(** What [loadUser] does with the client of [api.ts] when the profile
    fetch fails: one request goes out, both keys leave the storage, and the
    client object is as it was. *)
Lemma loadUser_failed_fetch (w : AuthStore.World) (o : FetchOutcome) :
  browser (AuthStore.env w) = true ->
  truthy (stored_token (AuthStore.env w)) = true ->
  fetch_fails o = true ->
  exists w', AuthStore.loadUser (apiClient o) w = (Normal tt, w')
    /\ AuthStore.env w'
       = {| browser := true;
            client := client (AuthStore.env w);
            localStorage := delete "refresh_token"
                              (delete "access_token" (localStorage (AuthStore.env w)));
            network := network (AuthStore.env w)
                       ++ [outgoing (AuthStore.env w) "/auth/profile/" no_options] |}
    /\ AuthStore.user (AuthStore.state w') = JNull
    /\ AuthStore.isAuthenticated (AuthStore.state w') = false
    /\ AuthStore.isLoading (AuthStore.state w') = false.
Proof.
  intros Hb Ht Hf.
  destruct (request_completes "/auth/profile/" no_options o (AuthStore.env w))
    as [r Hr].
  destruct (request_failure "/auth/profile/" no_options o (AuthStore.env w) Hf)
    as (m & Hm & _).
  rewrite Hr in Hm. cbn in Hm. injection Hm as ->.
  destruct (loadUser_no_profile (apiClient o) w) as (w' & Hw & He & Hrest).
  - assumption.
  - assumption.
  - cbn [apiClient AuthStore.api_getProfile].
    unfold ApiClientTs.getProfile. now rewrite Hr.
  - cbn [apiClient AuthStore.api_getProfile].
    unfold ApiClientTs.getProfile. now rewrite Hr.
  - exists w'. split; [assumption|]. split; [|assumption].
    rewrite He. cbn [apiClient AuthStore.api_getProfile].
    unfold ApiClientTs.getProfile. rewrite Hr. cbn.
    unfold set_localStorage. cbn. now rewrite Hb.
Qed.

(** C6.  [loadUser()] called in the browser with a token in storage (what
    [getItem('access_token')] returns is truthy) whose profile fetch fails
    (a non-2xx status such as 401, an unreadable body, or a rejected fetch)
    completes with neither [access_token] nor [refresh_token] left in
    storage and with [user == null], [isAuthenticated == false],
    [isLoading == false]. *)
Theorem loadUser_failed_fetch_removes_tokens
    (w : AuthStore.World) (o : FetchOutcome) :
  browser (AuthStore.env w) = true ->
  truthy (stored_token (AuthStore.env w)) = true ->
  fetch_fails o = true ->
  exists w', AuthStore.loadUser (apiClient o) w = (Normal tt, w')
    /\ localStorage (AuthStore.env w') !! "access_token" = None
    /\ localStorage (AuthStore.env w') !! "refresh_token" = None
    /\ AuthStore.user (AuthStore.state w') = JNull
    /\ AuthStore.isAuthenticated (AuthStore.state w') = false
    /\ AuthStore.isLoading (AuthStore.state w') = false.
Proof.
  intros Hb Ht Hf.
  destruct (loadUser_failed_fetch w o Hb Ht Hf) as (w' & Hw & He & Hrest).
  exists w'. split; [assumption|]. rewrite He. cbn.
  split; [|split; [|assumption]].
  - rewrite lookup_delete_ne by discriminate. apply lookup_delete_eq.
  - apply lookup_delete_eq.
Qed.

(** ** The token held in memory *)




(** ** The first assignment of each operation *)

Lemma lookup_first_appended {A} (l rest : list A) (x : A) :
  (l ++ x :: rest)%list !! length l = Some x.
Proof. now apply list_lookup_middle. Qed.

Ltac first_appended :=
  cbn; rewrite <- ?app_assoc; cbn; apply lookup_first_appended.

Lemma first_mutation_authenticate (remote_call : M Env ApiResponse)
    (welcome fallback failed : string) (w : AuthStore.World) :
  first_mutation (AuthStore.authenticate remote_call welcome fallback failed) w
  = Some (AuthStore.set_error JNull (AuthStore.set_isLoading true (AuthStore.state w))).
Proof.
  unfold first_mutation, AuthStore.authenticate. unfold_store. cbn.
  destruct (remote_call (AuthStore.env w)) as [[r | x] e']; cbn;
    [|first_appended].
  destruct (Response.data r) as [| | [] | n | s | items | props]; cbn;
    try first_appended.
  - destruct (negb (n =? 0)); first_appended.
  - destruct (negb (s =? "")%string); first_appended.
  - destruct (assoc "user" props) as [u|]; cbn; [|first_appended].
    destruct (nullish u); first_appended.
Qed.

Lemma first_mutation_updateProfile (remote : AuthStore.ApiMethods)
    (userData : Value) (w : AuthStore.World) :
  first_mutation (AuthStore.updateProfile remote userData) w
  = Some (AuthStore.set_error JNull (AuthStore.set_isLoading true (AuthStore.state w))).
Proof.
  unfold first_mutation, AuthStore.updateProfile. unfold_store. cbn.
  destruct (AuthStore.api_updateProfile remote userData (AuthStore.env w))
    as [[r | x] e']; cbn; [|first_appended].
  destruct (truthy (Response.data r)); first_appended.
Qed.

Lemma first_mutation_logout (remote : AuthStore.ApiMethods) (w : AuthStore.World) :
  first_mutation (AuthStore.logout remote) w
  = Some (AuthStore.set_isLoading true (AuthStore.state w)).
Proof.
  unfold first_mutation, AuthStore.logout. unfold_store. cbn.
  destruct (AuthStore.api_logout remote (AuthStore.env w)) as [[r | x] e'];
    first_appended.
Qed.

Lemma first_mutation_loadUser (remote : AuthStore.ApiMethods) (w : AuthStore.World) :
  browser (AuthStore.env w) = true ->
  first_mutation (AuthStore.loadUser remote) w
  = Some (if truthy (stored_token (AuthStore.env w))
          then AuthStore.set_isLoading true (AuthStore.state w)
          else AuthStore.set_isLoading false
                 (AuthStore.set_isAuthenticated false
                    (AuthStore.set_user JNull (AuthStore.state w)))).
Proof.
  intros Hb. destruct (truthy (stored_token (AuthStore.env w))) eqn:Ht.
  - unfold first_mutation, AuthStore.loadUser, stored_token in *.
    unfold_store. unfold_storage. cbn. rewrite Hb. cbn.
    destruct (localStorage (AuthStore.env w) !! "access_token") as [s|];
      cbn in *; [rewrite Ht|discriminate]; cbn.
    destruct (AuthStore.api_getProfile remote (AuthStore.env w)) as [[r | x] e'];
      cbn.
    + destruct (truthy (Response.data r)); cbn; [first_appended|].
      destruct (browser e') eqn:Hb'; repeat (cbn; rewrite ?Hb'); first_appended.
    + destruct (browser e') eqn:Hb'; repeat (cbn; rewrite ?Hb'); first_appended.
  - unfold first_mutation. rewrite loadUser_no_token by assumption.
    first_appended.
Qed.


(** ** Clearing [error] *)

(** C8, as stated, fails: the first state [logout()] assigns still carries
    the message of the refused login. *)
Lemma logout_first_assignment_keeps_error :
  AuthStore.error (AuthStore.state Scenario.refused) = JStr "Invalid credentials"
  /\ AuthStore.error
       <$> first_mutation
             (AuthStore.logout (apiClient (FetchResponds 200 (Parsed (JObj [])))))
             Scenario.refused
     = Some (JStr "Invalid credentials")
  /\ AuthStore.error
       <$> first_mutation
             (AuthStore.logout (apiClient (FetchResponds 200 (Parsed (JObj [])))))
             Scenario.refused
     <> Some JNull.
Proof. split; [reflexivity|]. split; [reflexivity|]. discriminate. Qed.

(** The same holds of [loadUser()], with or without a stored token. *)
Lemma loadUser_first_assignment_keeps_error :
  AuthStore.error
    <$> first_mutation (AuthStore.loadUser (apiClient Scenario.unauthorized))
          Scenario.refused
  = Some (JStr "Invalid credentials").
Proof. reflexivity. Qed.

(** C8, amended.  The first state assigned by [login], [register] and
    [updateProfile] (and the one assigned by [clearError]) has
    [error == null].  The first state assigned by [logout], and by
    [loadUser] in the browser, carries the [error] the store held before:
    [logout] clears it in its last assignment only. *)
Theorem error_cleared_at_start_of_login_register_updateProfile
    (remote : AuthStore.ApiMethods) (payload : Value) (w : AuthStore.World) :
  (exists s, first_mutation (AuthStore.login remote payload) w = Some s
             /\ AuthStore.error s = JNull)
  /\ (exists s, first_mutation (AuthStore.register remote payload) w = Some s
                /\ AuthStore.error s = JNull)
  /\ (exists s, first_mutation (AuthStore.updateProfile remote payload) w = Some s
                /\ AuthStore.error s = JNull)
  /\ (exists s, first_mutation AuthStore.clearError w = Some s
                /\ AuthStore.error s = JNull)
  /\ (exists s, first_mutation (AuthStore.logout remote) w = Some s
                /\ AuthStore.error s = AuthStore.error (AuthStore.state w))
  /\ (browser (AuthStore.env w) = true ->
      exists s, first_mutation (AuthStore.loadUser remote) w = Some s
                /\ AuthStore.error s = AuthStore.error (AuthStore.state w))
  /\ (exists w', AuthStore.logout remote w = (Normal tt, w')
                 /\ AuthStore.error (AuthStore.state w') = JNull).
Proof.
  split_and!.
  - eexists. split; [apply first_mutation_authenticate | reflexivity].
  - eexists. split; [apply first_mutation_authenticate | reflexivity].
  - eexists. split; [apply first_mutation_updateProfile | reflexivity].
  - eexists. split.
    + unfold first_mutation, AuthStore.clearError. unfold_store. first_appended.
    + reflexivity.
  - eexists. split; [apply first_mutation_logout | reflexivity].
  - intros Hb. eexists. split; [now apply first_mutation_loadUser |].
    now destruct (truthy (stored_token (AuthStore.env w))).
  - destruct (logout_settles remote w) as (w' & Hw & _ & _ & He & _).
    eauto.
Qed.

(** ** Agreement of [isAuthenticated] with [user] *)

(** Every operation but a successful [updateProfile] keeps the two fields
    in agreement, as long as a response that carries a [user] key carries a
    user with it. *)
Lemma authenticate_consistent (remote_call : M Env ApiResponse)
    (welcome fallback failed : string) (w : AuthStore.World) :
  consistent (AuthStore.state w) = true ->
  (forall r, fst (remote_call (AuthStore.env w)) = Normal r ->
             carries_user r = true ->
             nullish (own_prop (Response.data r) p_user) = false) ->
  consistent
    (AuthStore.state
       (snd (AuthStore.authenticate remote_call welcome fallback failed w))) = true.
Proof.
  intros Hc Hu. unfold AuthStore.authenticate. unfold_store. cbn.
  destruct (remote_call (AuthStore.env w)) as [[r | x] e']; cbn in *;
    [|exact Hc].
  specialize (Hu r eq_refl). unfold carries_user in Hu.
  destruct (Response.data r) as [| | [] | n | s | items | props]; cbn in *;
    try exact Hc.
  - destruct (negb (n =? 0)); exact Hc.
  - destruct (negb (s =? "")%string); exact Hc.
  - destruct (assoc "user" props) as [u|]; cbn in *; [|exact Hc].
    rewrite (Hu eq_refl). cbn. unfold consistent. cbn. now rewrite (Hu eq_refl).
Qed.

Lemma updateProfile_consistent (remote : AuthStore.ApiMethods)
    (userData : Value) (w : AuthStore.World) :
  consistent (AuthStore.state w) = true ->
  AuthStore.isAuthenticated (AuthStore.state w) = true ->
  consistent (AuthStore.state (snd (AuthStore.updateProfile remote userData w))) = true.
Proof.
  intros Hc Ha. unfold AuthStore.updateProfile. unfold_store. cbn.
  destruct (AuthStore.api_updateProfile remote userData (AuthStore.env w))
    as [[r | x] e']; cbn; [|exact Hc].
  destruct (truthy (Response.data r)) eqn:Ht; cbn; [|exact Hc].
  unfold consistent. cbn. rewrite Ha.
  now destruct (Response.data r).
Qed.

Lemma loadUser_consistent (remote : AuthStore.ApiMethods) (w : AuthStore.World) :
  consistent (AuthStore.state w) = true ->
  consistent (AuthStore.state (snd (AuthStore.loadUser remote w))) = true.
Proof.
  intros Hc. unfold AuthStore.loadUser. unfold_store. unfold_storage. cbn.
  destruct (browser (AuthStore.env w)); cbn; [|exact Hc].
  destruct (negb (truthy
              match localStorage (AuthStore.env w) !! "access_token" with
              | Some s => JStr s
              | None => JNull
              end)); cbn; [reflexivity|].
  destruct (AuthStore.api_getProfile remote (AuthStore.env w)) as [[r | x] e'];
    cbn.
  - destruct (truthy (Response.data r)) eqn:Ht; cbn.
    + unfold consistent. cbn. now destruct (Response.data r).
    + destruct (browser e') eqn:Hb'; repeat (cbn; rewrite ?Hb');
        first [reflexivity | exact Hc].
  - destruct (browser e') eqn:Hb'; repeat (cbn; rewrite ?Hb');
      first [reflexivity | exact Hc].
Qed.

Lemma run_action_consistent (remote : AuthStore.ApiMethods) (a : Action)
    (w : AuthStore.World) :
  consistent (AuthStore.state w) = true ->
  step_ok remote a w ->
  consistent (AuthStore.state (run_action remote a w)) = true.
Proof.
  intros Hc Ha. destruct a; cbn [run_action step_ok] in *.
  - now apply authenticate_consistent.
  - now apply authenticate_consistent.
  - destruct (logout_settles remote w) as (w' & -> & Hu & Hi & _). cbn.
    unfold consistent. now rewrite Hu, Hi.
  - now apply loadUser_consistent.
  - now apply updateProfile_consistent.
  - exact Hc.
Qed.

(** Along such a session the two fields agree after every operation. *)
Lemma run_session_consistent (steps : list (Action * FetchOutcome))
    (w : AuthStore.World) :
  consistent (AuthStore.state w) = true ->
  session_ok steps w ->
  consistent (AuthStore.state (run_session steps w)) = true.
Proof.
  revert w. induction steps as [| [a o] rest IH]; intros w Hc Hok.
  - exact Hc.
  - destruct Hok as [Hstep Hrest]. cbn in Hstep, Hrest.
    unfold run_session. cbn [fold_left fst snd].
    apply IH; [|exact Hrest].
    now apply run_action_consistent.
Qed.

(** C1 fails on the code.  On a page that still holds a token, before
    [loadUser] has run, a successful [updateProfile] settles with the user
    set and [isAuthenticated] still [false]. *)
Theorem updateProfile_sets_user_without_isAuthenticated :
  let w := run_session
             [(UpdateProfile (JObj [("bio", JStr "hi")]),
               FetchResponds 200 (Parsed Scenario.alice))]
             Scenario.returning in
  AuthStore.state w
  = {| AuthStore.user := Scenario.alice; AuthStore.isAuthenticated := false;
       AuthStore.isLoading := false; AuthStore.error := JNull |}
  /\ consistent (AuthStore.state w) = false.
Proof. split; reflexivity. Qed.

(** ** The credential token *)

(** In [api.ts] no response can make an endpoint method other than [login]
    and [logout] touch the token, in memory or in storage. *)
Lemma response_keeps_token (ep : Endpoint) (o : FetchOutcome) (e : Env) :
  writes_token ep = false ->
  client (snd (invoke ep o e)) = client e
  /\ localStorage (snd (invoke ep o e)) = localStorage e.
Proof.
  intros Hw.
  destruct (invoke_sends ep o e) as (path & options & r & e' & Hi & _ & _ & He).
  rewrite Hi. cbn. now rewrite (He Hw).
Qed.

(** The second copy of the client does drop the token on a 401. *)
Lemma second_copy_clears_token_on_401
    (endpoint : string) (options : RequestInit) (d : Value) (e : Env) :
  browser e = true ->
  let e' := snd (ApiClientV2.request endpoint options (FetchResponds 401 (Parsed d)) e) in
  token (client e') = JNull /\ localStorage e' !! "access_token" = None.
Proof.
  intros Hb. unfold ApiClientV2.request, fetch, ApiClientTs.clearToken.
  unfold_storage. cbn. repeat (rewrite Hb; cbn). split; [reflexivity|].
  apply lookup_delete_eq.
Qed.

(** C2 fails on [api.ts].  A 401 answer to [getUserPolls()] comes back as
    an error result and leaves the token where it was, in memory and in
    storage; the page reloaded afterwards finds the token, and its
    [loadUser()] goes to the network with it. *)
Theorem unauthorized_response_keeps_token :
  let e0 := AuthStore.env Scenario.returning in
  let e1 := snd (invoke EpGetUserPolls Scenario.unauthorized e0) in
  let reloaded := boot true (localStorage e1) in
  let w2 := snd (AuthStore.loadUser (apiClient Scenario.unauthorized) reloaded) in
  fst (invoke EpGetUserPolls Scenario.unauthorized e0)
  = Normal (Response.with_error (JStr "An error occurred"))
  /\ token (client e1) = JStr "tok1"
  /\ localStorage e1 !! "access_token" = Some "tok1"
  /\ token (client (AuthStore.env reloaded)) = JStr "tok1"
  /\ (req_url <$> network (AuthStore.env w2))
     = ["http://localhost:8000/api/auth/profile/"]
  /\ (authorization <$> network (AuthStore.env w2)) = [Some "Bearer tok1"].
Proof. vm_compute. repeat split. Qed.

(** [register] of [api.ts] is the bare request. *)
Lemma register_keeps_token (userData : Value) (o : FetchOutcome) (e : Env) :
  client (snd (ApiClientTs.register userData o e)) = client e
  /\ localStorage (snd (ApiClientTs.register userData o e)) = localStorage e.
Proof. exact (response_keeps_token (EpRegister userData) o e eq_refl). Qed.


(** C3 fails on the code.  After a registration the server accepted, the
    store reports an authenticated user while the client holds no token, in
    memory or in storage, and its next request goes out without an
    [Authorization] header; the same answer given to [login] is stored. *)
Theorem register_does_not_store_token :
  let w := run_session
             [(Register Scenario.signup,
               FetchResponds 201 (Parsed Scenario.auth_body))]
             Scenario.fresh in
  AuthStore.isAuthenticated (AuthStore.state w) = true
  /\ AuthStore.user (AuthStore.state w) = Scenario.alice
  /\ token (client (AuthStore.env w)) = JNull
  /\ localStorage (AuthStore.env w) !! "access_token" = None
  /\ (authorization <$> sent (invoke EpGetUserPolls Scenario.unauthorized)
                          (AuthStore.env w)) = [None]
  /\ token (client (AuthStore.env Scenario.logged_in)) = JStr "tok1".
Proof. vm_compute. repeat split. Qed.

(** ** Messages of the request primitive *)

(** The second copy reads [detail] and tells a fetch that could not reach
    the server from other failures. *)
Example second_copy_messages :
  let e0 := AuthStore.env Scenario.fresh in
  fst (ApiClientV2.request "/auth/login/" (post (Some Scenario.credentials))
         (FetchResponds 400 (Parsed (JObj [("detail", JStr "No active account")]))) e0)
  = Normal (Response.with_error (JStr "No active account"))
  /\ fst (ApiClientV2.request "/auth/login/" (post (Some Scenario.credentials))
            Scenario.unreachable e0)
     = Normal (Response.with_error
                 (JStr "Cannot connect to server. Please check if the backend server is running."))
  /\ fst (ApiClientV2.request "/auth/login/" (post (Some Scenario.credentials))
            (FetchRejects (ThrownError PlainError "aborted")) e0)
     = Normal (Response.with_error (JStr "Network error: aborted")).
Proof. vm_compute. repeat split. Qed.

(** C5 fails on [api.ts] in two places, though the primitive never throws
    ([request_completes]).  A 400 answer whose body names its reason under
    [detail] is reported with the generic text, and a fetch that could not
    reach the server is reported with the same text as any other
    exception. *)
Theorem request_ignores_detail_and_kind_of_failure :
  let e0 := AuthStore.env Scenario.fresh in
  let call := ApiClientTs.request "/auth/login/" (post (Some Scenario.credentials)) in
  fst (call (FetchResponds 400 (Parsed (JObj [("detail", JStr "No active account")]))) e0)
  = Normal (Response.with_error (JStr "An error occurred"))
  /\ fst (call Scenario.unreachable e0)
     = Normal (Response.with_error (JStr "Network error occurred"))
  /\ fst (call (FetchRejects (ThrownError PlainError "aborted")) e0)
     = Normal (Response.with_error (JStr "Network error occurred"))
  /\ fst (call (FetchResponds 502 (Unparsable (ThrownError SyntaxError "Unexpected token <"))) e0)
     = Normal (Response.with_error (JStr "Network error occurred")).
Proof. vm_compute. repeat split. Qed.

(** What does hold of the primitive of [api.ts]: a non-2xx answer with a
    JSON object as body is reported with the body's [message], else its
    [error], else the generic text. *)
Lemma request_error_message (endpoint : string) (options : RequestInit)
    (status : Z) (props : list (string * Value)) (e : Env) :
  status_ok status = false ->
  fst (ApiClientTs.request endpoint options (FetchResponds status (Parsed (JObj props))) e)
  = Normal (Response.with_error
              (or_else (own_prop (JObj props) p_message)
                 (or_else (own_prop (JObj props) p_error) (JStr "An error occurred")))).
Proof.
  intros Hs. unfold ApiClientTs.request, fetch. unfold_monad. cbn.
  rewrite Hs. cbn. unfold or_else.
  now destruct (truthy (default JUndefined (assoc "message" props))).
Qed.

(** ** The theorems at concrete sessions *)

Lemma loadUser_without_token_stays_local_witness :
  browser (AuthStore.env Scenario.fresh) = true
  /\ localStorage (AuthStore.env Scenario.fresh) !! "access_token" = None
  /\ exists w',
       AuthStore.loadUser (apiClient Scenario.unreachable) Scenario.fresh = (Normal tt, w')
       /\ AuthStore.env w' = AuthStore.env Scenario.fresh
       /\ network (AuthStore.env w') = network (AuthStore.env Scenario.fresh)
       /\ AuthStore.assigned w'
          = (AuthStore.assigned Scenario.fresh ++ [AuthStore.state w'])%list
       /\ AuthStore.isAuthenticated (AuthStore.state w') = false
       /\ AuthStore.user (AuthStore.state w') = JNull
       /\ AuthStore.isLoading (AuthStore.state w') = false.
Proof.
  split; [reflexivity|]. split; [reflexivity|].
  apply (loadUser_without_token_stays_local
           (apiClient Scenario.unreachable) Scenario.fresh); reflexivity.
Defined.

Lemma loadUser_failed_fetch_removes_tokens_witness :
  browser (AuthStore.env Scenario.returning) = true
  /\ truthy (stored_token (AuthStore.env Scenario.returning)) = true
  /\ fetch_fails Scenario.unauthorized = true
  /\ exists w',
       AuthStore.loadUser (apiClient Scenario.unauthorized) Scenario.returning
       = (Normal tt, w')
       /\ localStorage (AuthStore.env w') !! "access_token" = None
       /\ localStorage (AuthStore.env w') !! "refresh_token" = None
       /\ AuthStore.user (AuthStore.state w') = JNull
       /\ AuthStore.isAuthenticated (AuthStore.state w') = false
       /\ AuthStore.isLoading (AuthStore.state w') = false.
Proof.
  split; [reflexivity|]. split; [reflexivity|]. split; [reflexivity|].
  apply (loadUser_failed_fetch_removes_tokens
           Scenario.returning Scenario.unauthorized); reflexivity.
Defined.

Lemma failed_login_register_keep_session_witness :
  AuthStore.isAuthenticated (AuthStore.state Scenario.logged_in) = true
  /\ call_fails
       (fst (AuthStore.api_login (apiClient Scenario.invalid_credentials)
               Scenario.credentials (AuthStore.env Scenario.logged_in))) = true
  /\ exists w',
       AuthStore.login (apiClient Scenario.invalid_credentials)
         Scenario.credentials Scenario.logged_in = (Normal false, w')
       /\ AuthStore.user (AuthStore.state w')
          = AuthStore.user (AuthStore.state Scenario.logged_in)
       /\ AuthStore.isAuthenticated (AuthStore.state w')
          = AuthStore.isAuthenticated (AuthStore.state Scenario.logged_in)
       /\ AuthStore.isLoading (AuthStore.state w') = false
       /\ truthy (AuthStore.error (AuthStore.state w')) = true.
Proof.
  split; [reflexivity|]. split; [reflexivity|].
  apply (proj1 (failed_login_register_keep_session
                  (apiClient Scenario.invalid_credentials)
                  Scenario.credentials Scenario.logged_in)).
  reflexivity.
Defined.

Lemma error_cleared_at_start_witness :
  browser (AuthStore.env Scenario.refused) = true
  /\ exists s,
       first_mutation (AuthStore.loadUser (apiClient Scenario.unauthorized))
         Scenario.refused = Some s
       /\ AuthStore.error s = AuthStore.error (AuthStore.state Scenario.refused).
Proof.
  split; [reflexivity|].
  destruct (error_cleared_at_start_of_login_register_updateProfile
              (apiClient Scenario.unauthorized) Scenario.credentials Scenario.refused)
    as (_ & _ & _ & _ & _ & Hload & _).
  apply Hload. reflexivity.
Defined.


Example stale_token_requests :
  let e1 := AuthStore.env
              (snd (AuthStore.loadUser (apiClient Scenario.unauthorized)
                      Scenario.returning)) in
  (authorization <$> sent (invoke EpGetUserPolls Scenario.unauthorized) e1)
  = [Some "Bearer tok1"].
Proof. reflexivity. Qed.

(** * Further properties of the client of [api.ts] *)

(** X1.  The token string written by [setToken] is kept as it is under
    [access_token], and is the token a client constructed after a reload
    starts with. *)
Theorem token_survives_reload (t : string) (base : string) (e : Env) :
  browser e = true ->
  let e' := snd (ApiClientTs.setToken (JStr t) e) in
  token (client e') = JStr t
  /\ localStorage e' !! "access_token" = Some t
  /\ token (client (ApiClientTs.construct base true (localStorage e')))
     = JStr t.
Proof.
  intros Hb. unfold ApiClientTs.setToken, ApiClientTs.construct.
  unfold_storage. cbn. repeat (rewrite Hb; cbn).
  rewrite lookup_insert_eq. repeat split.
Qed.

Lemma token_survives_reload_witness :
  let e' := snd (ApiClientTs.setToken (JStr "tok1") (AuthStore.env Scenario.fresh)) in
  token (client e') = JStr "tok1"
  /\ localStorage e' !! "access_token" = Some "tok1"
  /\ token (client (ApiClientTs.construct "http://example.test" true (localStorage e')))
     = JStr "tok1".
Proof.
  apply (token_survives_reload "tok1" "http://example.test"
           (AuthStore.env Scenario.fresh)).
  reflexivity.
Defined.







Lemma request_shapes (endpoint : string) (options : RequestInit)
    (o : FetchOutcome) (e : Env) :
  exists r,
    fst (ApiClientTs.request endpoint options o e) = Normal r
    /\ match o with
       | FetchResponds status (Parsed d) =>
           if status_ok status
           then r = Response.with_data d
           else Response.data r = JUndefined /\ truthy (Response.error r) = true
       | _ => r = Response.with_error (JStr "Network error occurred")
       end.
Proof.
  destruct o as [x | status [d | x]].
  - eexists. split; reflexivity.
  - destruct (status_ok status) eqn:Hs.
    + exists (Response.with_data d). split; [|reflexivity].
      unfold ApiClientTs.request, fetch. unfold_monad. cbn. now rewrite Hs.
    + destruct (request_failure endpoint options (FetchResponds status (Parsed d)) e)
        as (m & Hm & Ht); [cbn; now rewrite Hs|].
      exists (Response.with_error m). split; [assumption|]. split; [reflexivity|assumption].
  - eexists. split; reflexivity.
Qed.




Lemma request_data_delivered (endpoint : string) (options : RequestInit)
    (o : FetchOutcome) (e : Env) :
  exists r,
    ApiClientTs.request endpoint options o e
    = (Normal r, log_request (outgoing e endpoint options) e)
    /\ Response.data r = delivered o
    /\ (fetch_fails o = true -> truthy (Response.error r) = true).
Proof.
  destruct (request_completes endpoint options o e) as [r Hr].
  destruct (request_shapes endpoint options o e) as (r' & Hr' & Hshape).
  rewrite Hr in Hr'. cbn in Hr'. injection Hr' as <-.
  exists r. split; [assumption|].
  destruct o as [x | status [d | x]]; cbn in *.
  - subst r. split; [reflexivity|]. reflexivity.
  - destruct (status_ok status); cbn.
    + subst r. split; [reflexivity|]. discriminate.
    + destruct Hshape as [Hd He]. split; [assumption|]. now intros _.
  - subst r. split; [reflexivity|]. reflexivity.
Qed.



(** X7.  A login that brings no access token -- the fetch fails, or the answer
    has no truthy [tokens.access] -- leaves the token of an earlier login in
    place, in memory and in storage. *)
Theorem failed_login_keeps_token (credentials : Value) (o : FetchOutcome) (e : Env) :
  truthy (opt_chain (opt_chain (delivered o) p_tokens) p_access) = false ->
  client (snd (ApiClientTs.login credentials o e)) = client e
  /\ localStorage (snd (ApiClientTs.login credentials o e)) = localStorage e.
Proof.
  intros Ht.
  destruct (request_data_delivered "/auth/login/" (post (Some credentials)) o e)
    as (r & Hr & Hd & _).
  assert (Hlogin : ApiClientTs.login credentials o e
                   = (Normal r,
                      log_request (outgoing e "/auth/login/" (post (Some credentials))) e)).
  { unfold ApiClientTs.login. unfold bind at 1. rewrite Hr. cbn iota.
    rewrite Hd, Ht. reflexivity. }
  rewrite Hlogin. split; reflexivity.
Qed.

Lemma failed_login_keeps_token_witness :
  client (snd (ApiClientTs.login Scenario.credentials Scenario.invalid_credentials
                 (AuthStore.env Scenario.logged_in)))
  = client (AuthStore.env Scenario.logged_in)
  /\ localStorage (snd (ApiClientTs.login Scenario.credentials
                          Scenario.invalid_credentials
                          (AuthStore.env Scenario.logged_in)))
     = localStorage (AuthStore.env Scenario.logged_in).
Proof.
  apply (failed_login_keeps_token Scenario.credentials Scenario.invalid_credentials
           (AuthStore.env Scenario.logged_in)).
  reflexivity.
Defined.



(** * Further properties of the store of [auth.ts] *)

Section StoreOutcomes.

Variable remote : AuthStore.ApiMethods.

Lemma authenticate_outcome (remote_call : M Env ApiResponse)
    (welcome fallback failed : string) (w : AuthStore.World) :
  String.eqb fallback "" = false ->
  exists b w',
    AuthStore.authenticate remote_call welcome fallback failed w = (Normal b, w')
    /\ AuthStore.env w' = snd (remote_call (AuthStore.env w))
    /\ AuthStore.isLoading (AuthStore.state w') = false
    /\ match brings_user (fst (remote_call (AuthStore.env w))) with
       | Some u =>
           b = true
           /\ AuthStore.state w'
              = {| AuthStore.user := u; AuthStore.isAuthenticated := true;
                   AuthStore.isLoading := false; AuthStore.error := JNull |}
       | None =>
           b = false
           /\ truthy (AuthStore.error (AuthStore.state w')) = true
           /\ if call_fails (fst (remote_call (AuthStore.env w)))
              then AuthStore.user (AuthStore.state w')
                   = AuthStore.user (AuthStore.state w)
                   /\ AuthStore.isAuthenticated (AuthStore.state w')
                      = AuthStore.isAuthenticated (AuthStore.state w)
              else nullish (AuthStore.user (AuthStore.state w')) = true
                   /\ AuthStore.isAuthenticated (AuthStore.state w') = true
       end.
Proof.
  intros Hf. unfold AuthStore.authenticate, brings_user, call_fails, carries_user.
  unfold_store. cbn.
  destruct (remote_call (AuthStore.env w)) as [[r | x] e']; cbn.
  - destruct (Response.data r) as [| | [] | n | s | items | props]; cbn;
      try (eexists; eexists; repeat split;
           first [apply truthy_caught_message | now apply truthy_or_else_str]).
    + destruct (negb (n =? 0)); cbn;
        eexists; eexists; repeat split;
        first [apply truthy_caught_message | now apply truthy_or_else_str].
    + destruct (negb (s =? "")%string); cbn;
        eexists; eexists; repeat split;
        first [apply truthy_caught_message | now apply truthy_or_else_str].
    + destruct (assoc "user" props) as [u|]; cbn.
      * destruct (nullish u) eqn:Hu; cbn.
        -- eexists; eexists; repeat split. exact Hu.
        -- eexists; eexists; repeat split.
      * eexists; eexists; repeat split. now apply truthy_or_else_str.
  - eexists; eexists; repeat split. apply truthy_caught_message.
Qed.

Lemma login_register_settle (payload : Value) (w : AuthStore.World) :
  (exists b w',
     AuthStore.login remote payload w = (Normal b, w')
     /\ AuthStore.env w' = snd (AuthStore.api_login remote payload (AuthStore.env w))
     /\ AuthStore.isLoading (AuthStore.state w') = false
     /\ match brings_user (fst (AuthStore.api_login remote payload (AuthStore.env w))) with
        | Some u =>
            b = true
            /\ AuthStore.state w'
               = {| AuthStore.user := u; AuthStore.isAuthenticated := true;
                    AuthStore.isLoading := false; AuthStore.error := JNull |}
        | None =>
            b = false
            /\ truthy (AuthStore.error (AuthStore.state w')) = true
            /\ if call_fails (fst (AuthStore.api_login remote payload (AuthStore.env w)))
               then AuthStore.user (AuthStore.state w')
                    = AuthStore.user (AuthStore.state w)
                    /\ AuthStore.isAuthenticated (AuthStore.state w')
                       = AuthStore.isAuthenticated (AuthStore.state w)
               else nullish (AuthStore.user (AuthStore.state w')) = true
                    /\ AuthStore.isAuthenticated (AuthStore.state w') = true
        end)
  /\
  (exists b w',
     AuthStore.register remote payload w = (Normal b, w')
     /\ AuthStore.env w' = snd (AuthStore.api_register remote payload (AuthStore.env w))
     /\ AuthStore.isLoading (AuthStore.state w') = false
     /\ match brings_user (fst (AuthStore.api_register remote payload (AuthStore.env w))) with
        | Some u =>
            b = true
            /\ AuthStore.state w'
               = {| AuthStore.user := u; AuthStore.isAuthenticated := true;
                    AuthStore.isLoading := false; AuthStore.error := JNull |}
        | None =>
            b = false
            /\ truthy (AuthStore.error (AuthStore.state w')) = true
            /\ if call_fails (fst (AuthStore.api_register remote payload (AuthStore.env w)))
               then AuthStore.user (AuthStore.state w')
                    = AuthStore.user (AuthStore.state w)
                    /\ AuthStore.isAuthenticated (AuthStore.state w')
                       = AuthStore.isAuthenticated (AuthStore.state w)
               else nullish (AuthStore.user (AuthStore.state w')) = true
                    /\ AuthStore.isAuthenticated (AuthStore.state w') = true
        end).
Proof.
  split; unfold AuthStore.login, AuthStore.register;
    now apply authenticate_outcome.
Qed.


Lemma updateProfile_settles (userData : Value) (w : AuthStore.World) :
  exists b w',
    AuthStore.updateProfile remote userData w = (Normal b, w')
    /\ AuthStore.env w'
       = snd (AuthStore.api_updateProfile remote userData (AuthStore.env w))
    /\ AuthStore.isLoading (AuthStore.state w') = false
    /\ AuthStore.isAuthenticated (AuthStore.state w')
       = AuthStore.isAuthenticated (AuthStore.state w)
    /\ match fst (AuthStore.api_updateProfile remote userData (AuthStore.env w)) with
       | Normal r =>
           if truthy (Response.data r)
           then b = true
                /\ AuthStore.user (AuthStore.state w') = Response.data r
                /\ AuthStore.error (AuthStore.state w') = JNull
           else b = false
                /\ AuthStore.user (AuthStore.state w') = AuthStore.user (AuthStore.state w)
                /\ AuthStore.error (AuthStore.state w')
                   = or_else (Response.error r) (JStr "Update failed")
       | Throw _ =>
           b = false
           /\ AuthStore.user (AuthStore.state w') = AuthStore.user (AuthStore.state w)
           /\ AuthStore.error (AuthStore.state w') = JStr "Network error occurred"
       end.
Proof.
  unfold AuthStore.updateProfile. unfold_store. cbn.
  destruct (AuthStore.api_updateProfile remote userData (AuthStore.env w))
    as [[r | x] e']; cbn.
  - destruct (truthy (Response.data r)); cbn; eexists; eexists; repeat split.
  - eexists; eexists; repeat split.
Qed.

(** X10.  [updateProfile] never throws, never leaves the store loading and never
    writes [isAuthenticated].  It returns [true] exactly when the awaited
    call resolved with truthy data, which then becomes the user; otherwise
    the user stays and [error] receives the response's error, the text
    for a failed update if it has none, or the text for network errors if
    the call threw. *)
Theorem updateProfile_outcome (userData : Value) (w : AuthStore.World) :
  exists b w',
    AuthStore.updateProfile remote userData w = (Normal b, w')
    /\ AuthStore.env w'
       = snd (AuthStore.api_updateProfile remote userData (AuthStore.env w))
    /\ AuthStore.isLoading (AuthStore.state w') = false
    /\ AuthStore.isAuthenticated (AuthStore.state w')
       = AuthStore.isAuthenticated (AuthStore.state w)
    /\ match fst (AuthStore.api_updateProfile remote userData (AuthStore.env w)) with
       | Normal r =>
           if truthy (Response.data r)
           then b = true
                /\ AuthStore.user (AuthStore.state w') = Response.data r
                /\ AuthStore.error (AuthStore.state w') = JNull
           else b = false
                /\ AuthStore.user (AuthStore.state w') = AuthStore.user (AuthStore.state w)
                /\ AuthStore.error (AuthStore.state w')
                   = or_else (Response.error r) (JStr "Update failed")
       | Throw _ =>
           b = false
           /\ AuthStore.user (AuthStore.state w') = AuthStore.user (AuthStore.state w)
           /\ AuthStore.error (AuthStore.state w') = JStr "Network error occurred"
       end.
Proof. exact (updateProfile_settles userData w). Qed.

Lemma loadUser_no_window (w : AuthStore.World) :
  browser (AuthStore.env w) = false ->
  exists x, AuthStore.loadUser remote w = (Throw (ThrownError ReferenceError x), w).
Proof.
  intros Hb. unfold AuthStore.loadUser. unfold_store. unfold_storage. cbn.
  rewrite Hb. cbn. eexists. destruct w as [[] ? ? ? ?]. reflexivity.
Qed.

(** X11.  Outside the browser [loadUser] of [auth.ts] throws a [ReferenceError]
    on its first line, before any assignment, notification or call. *)
Theorem loadUser_outside_browser_throws (w : AuthStore.World) :
  browser (AuthStore.env w) = false ->
  exists x, AuthStore.loadUser remote w = (Throw (ThrownError ReferenceError x), w).
Proof. exact (loadUser_no_window w). Qed.

End StoreOutcomes.

Lemma loadUser_outside_browser_throws_witness :
  exists x,
    AuthStore.loadUser (apiClient Scenario.unreachable)
      (boot false {[ "access_token" := "tok1" ]})
    = (Throw (ThrownError ReferenceError x), boot false {[ "access_token" := "tok1" ]}).
Proof.
  apply (loadUser_outside_browser_throws (apiClient Scenario.unreachable)
           (boot false {[ "access_token" := "tok1" ]})).
  reflexivity.
Defined.

(** ** Notifications and toasts *)

Ltac listeners_done :=
  right; unfold listeners_current; cbn; apply last_snoc.

Lemma authenticate_listeners (remote_call : M Env ApiResponse)
    (welcome fallback failed : string) (w : AuthStore.World) :
  listeners_current
    (snd (AuthStore.authenticate remote_call welcome fallback failed w)).
Proof.
  unfold listeners_current, AuthStore.authenticate. unfold_store. cbn.
  destruct (remote_call (AuthStore.env w)) as [[r | x] e']; cbn;
    [|apply last_snoc].
  destruct (Response.data r) as [| | [] | n | s | items | props]; cbn;
    try apply last_snoc.
  - destruct (negb (n =? 0)); cbn; apply last_snoc.
  - destruct (negb (s =? "")%string); cbn; apply last_snoc.
  - destruct (assoc "user" props) as [u|]; cbn; [|apply last_snoc].
    destruct (nullish u); cbn; apply last_snoc.
Qed.

(** X12.  Whatever operation runs, and however the awaited call behaves, the
    listeners end up with the current state: either the operation assigned
    nothing and notified nobody ([loadUser] throwing on its first line), or
    the snapshot of its last notification is the final value of [state]. *)
Theorem listeners_end_with_current_state
    (remote : AuthStore.ApiMethods) (a : Action) (w : AuthStore.World) :
  let w' := run_action remote a w in
  (AuthStore.state w' = AuthStore.state w
   /\ AuthStore.assigned w' = AuthStore.assigned w
   /\ AuthStore.notified w' = AuthStore.notified w)
  \/ listeners_current w'.
Proof.
  destruct a; cbn [run_action].
  - right. apply authenticate_listeners.
  - right. apply authenticate_listeners.
  - unfold AuthStore.logout. unfold_store. cbn.
    destruct (AuthStore.api_logout remote (AuthStore.env w)) as [[r | x] e'];
      listeners_done.
  - unfold AuthStore.loadUser. unfold_store. unfold_storage. cbn.
    destruct (browser (AuthStore.env w)); cbn; [|left; repeat split].
    destruct (negb (truthy
                match localStorage (AuthStore.env w) !! "access_token" with
                | Some s => JStr s
                | None => JNull
                end)); cbn; [listeners_done|].
    destruct (AuthStore.api_getProfile remote (AuthStore.env w)) as [[r | x] e'];
      cbn.
    + destruct (truthy (Response.data r)); cbn; [listeners_done|].
      destruct (browser e') eqn:Hb'; repeat (cbn; rewrite ?Hb'); listeners_done.
    + destruct (browser e') eqn:Hb'; repeat (cbn; rewrite ?Hb'); listeners_done.
  - unfold AuthStore.updateProfile. unfold_store. cbn.
    destruct (AuthStore.api_updateProfile remote userData (AuthStore.env w))
      as [[r | x] e']; cbn; [|listeners_done].
    destruct (truthy (Response.data r)); listeners_done.
  - unfold AuthStore.clearError. unfold_store. listeners_done.
Qed.

Lemma authenticate_toast (remote_call : M Env ApiResponse)
    (welcome fallback failed : string) (w : AuthStore.World) :
  exists t,
    AuthStore.toasts (snd (AuthStore.authenticate remote_call welcome fallback failed w))
    = (AuthStore.toasts w ++ [t])%list
    /\ AuthStore.toast_kind t
       = if resolved_true
              (fst (AuthStore.authenticate remote_call welcome fallback failed w))
         then AuthStore.toast_success else AuthStore.toast_error.
Proof.
  unfold AuthStore.authenticate. unfold_store. cbn.
  destruct (remote_call (AuthStore.env w)) as [[r | x] e']; cbn;
    [|eexists; split; reflexivity].
  destruct (Response.data r) as [| | [] | n | s | items | props]; cbn;
    try (eexists; split; reflexivity).
  - destruct (negb (n =? 0)); cbn; eexists; split; reflexivity.
  - destruct (negb (s =? "")%string); cbn; eexists; split; reflexivity.
  - destruct (assoc "user" props) as [u|]; cbn; [|eexists; split; reflexivity].
    destruct (nullish u); cbn; eexists; split; reflexivity.
Qed.

(** X13.  [login] and [register] show exactly one toast per call, a success
    toast when they return [true] and an error toast otherwise; [logout]
    shows exactly one, a success toast unless the awaited call threw, and
    the other operations show none. *)
Theorem one_toast_per_authentication
    (remote : AuthStore.ApiMethods) (a : Action) (w : AuthStore.World) :
  match a with
  | Login payload =>
      exists t,
        AuthStore.toasts (run_action remote a w) = (AuthStore.toasts w ++ [t])%list
        /\ AuthStore.toast_kind t
           = if resolved_true (fst (AuthStore.login remote payload w))
             then AuthStore.toast_success else AuthStore.toast_error
  | Register payload =>
      exists t,
        AuthStore.toasts (run_action remote a w) = (AuthStore.toasts w ++ [t])%list
        /\ AuthStore.toast_kind t
           = if resolved_true (fst (AuthStore.register remote payload w))
             then AuthStore.toast_success else AuthStore.toast_error
  | Logout =>
      exists t,
        AuthStore.toasts (run_action remote a w) = (AuthStore.toasts w ++ [t])%list
        /\ AuthStore.toast_kind t
           = match fst (AuthStore.api_logout remote (AuthStore.env w)) with
             | Normal _ => AuthStore.toast_success
             | Throw _ => AuthStore.toast_warning
             end
  | _ => AuthStore.toasts (run_action remote a w) = AuthStore.toasts w
  end.
Proof.
  destruct a; cbn [run_action].
  - apply authenticate_toast.
  - apply authenticate_toast.
  - unfold AuthStore.logout. unfold_store. cbn.
    destruct (AuthStore.api_logout remote (AuthStore.env w)) as [[r | x] e'];
      cbn; eexists; split; reflexivity.
  - unfold AuthStore.loadUser. unfold_store. unfold_storage. cbn.
    destruct (browser (AuthStore.env w)); cbn; [|reflexivity].
    destruct (negb (truthy
                match localStorage (AuthStore.env w) !! "access_token" with
                | Some s => JStr s
                | None => JNull
                end)); cbn; [reflexivity|].
    destruct (AuthStore.api_getProfile remote (AuthStore.env w)) as [[r | x] e'];
      cbn.
    + destruct (truthy (Response.data r)); cbn; [reflexivity|].
      destruct (browser e') eqn:Hb'; repeat (cbn; rewrite ?Hb'); reflexivity.
    + destruct (browser e') eqn:Hb'; repeat (cbn; rewrite ?Hb'); reflexivity.
  - unfold AuthStore.updateProfile. unfold_store. cbn.
    destruct (AuthStore.api_updateProfile remote userData (AuthStore.env w))
      as [[r | x] e']; cbn; [|reflexivity].
    destruct (truthy (Response.data r)); reflexivity.
  - reflexivity.
Qed.

(** * The store wired to the client of [api.ts] *)

Lemma loadUser_profile (remote : AuthStore.ApiMethods) (w : AuthStore.World) :
  browser (AuthStore.env w) = true ->
  truthy (stored_token (AuthStore.env w)) = true ->
  (exists r, fst (AuthStore.api_getProfile remote (AuthStore.env w)) = Normal r
             /\ truthy (Response.data r) = true) ->
  exists r w',
    fst (AuthStore.api_getProfile remote (AuthStore.env w)) = Normal r
    /\ AuthStore.loadUser remote w = (Normal tt, w')
    /\ AuthStore.env w' = snd (AuthStore.api_getProfile remote (AuthStore.env w))
    /\ AuthStore.state w'
       = {| AuthStore.user := Response.data r; AuthStore.isAuthenticated := true;
            AuthStore.isLoading := false; AuthStore.error := JNull |}.
Proof.
  intros Hb Ht (r & Hr & Hd). unfold AuthStore.loadUser, stored_token in *.
  unfold_store. unfold_storage. cbn. rewrite Hb. cbn.
  destruct (localStorage (AuthStore.env w) !! "access_token") as [s|];
    cbn in *; [rewrite Ht|discriminate]; cbn.
  destruct (AuthStore.api_getProfile remote (AuthStore.env w)) as [[r' | x] e'];
    cbn in *; [|discriminate].
  injection Hr as ->. rewrite Hd. cbn.
  exists r. eexists. repeat split.
Qed.

Lemma loadUser_settles (w : AuthStore.World) (o : FetchOutcome) :
  browser (AuthStore.env w) = true ->
  exists w',
    AuthStore.loadUser (apiClient o) w = (Normal tt, w')
    /\ AuthStore.isLoading (AuthStore.state w') = false
    /\ client (AuthStore.env w') = client (AuthStore.env w)
    /\ browser (AuthStore.env w') = true
    /\ if truthy (stored_token (AuthStore.env w))
       then
         network (AuthStore.env w')
         = (network (AuthStore.env w)
            ++ [outgoing (AuthStore.env w) "/auth/profile/" no_options])%list
         /\ if truthy (delivered o)
            then localStorage (AuthStore.env w') = localStorage (AuthStore.env w)
                 /\ AuthStore.state w'
                    = {| AuthStore.user := delivered o;
                         AuthStore.isAuthenticated := true;
                         AuthStore.isLoading := false; AuthStore.error := JNull |}
            else localStorage (AuthStore.env w')
                 = delete "refresh_token"
                     (delete "access_token" (localStorage (AuthStore.env w)))
                 /\ AuthStore.user (AuthStore.state w') = JNull
                 /\ AuthStore.isAuthenticated (AuthStore.state w') = false
       else
         AuthStore.env w' = AuthStore.env w
         /\ AuthStore.user (AuthStore.state w') = JNull
         /\ AuthStore.isAuthenticated (AuthStore.state w') = false.
Proof.
  intros Hb.
  destruct (truthy (stored_token (AuthStore.env w))) eqn:Ht.
  - destruct (request_data_delivered "/auth/profile/" no_options o (AuthStore.env w))
      as (r & Hr & Hd & _).
    destruct (truthy (delivered o)) eqn:Hdel.
    + destruct (loadUser_profile (apiClient o) w Hb Ht) as (r' & w' & Hr' & Hw & He & Hs).
      { exists r. cbn [apiClient AuthStore.api_getProfile].
        unfold ApiClientTs.getProfile. rewrite Hr. cbn. now rewrite Hd. }
      cbn [apiClient AuthStore.api_getProfile] in Hr', He.
      unfold ApiClientTs.getProfile in Hr', He. rewrite Hr in Hr', He.
      cbn in Hr', He. injection Hr' as <-.
      exists w'. split; [assumption|]. rewrite Hs, He. cbn.
      split; [reflexivity|]. split; [reflexivity|]. split; [assumption|].
      split; [reflexivity|].
      rewrite Hd. split; reflexivity.
    + destruct (loadUser_no_profile (apiClient o) w Hb Ht) as (w' & Hw & He & Hu & Ha & Hl).
      { cbn [apiClient AuthStore.api_getProfile].
        unfold ApiClientTs.getProfile. now rewrite Hr. }
      { cbn [apiClient AuthStore.api_getProfile].
        unfold ApiClientTs.getProfile. rewrite Hr. cbn. now rewrite Hd. }
      cbn [apiClient AuthStore.api_getProfile] in He.
      unfold ApiClientTs.getProfile in He. rewrite Hr in He. cbn in He.
      exists w'. split; [assumption|]. rewrite He. cbn.
      split; [assumption|]. split; [reflexivity|]. split; [assumption|].
      split; [reflexivity|].
      repeat split; assumption.
  - eexists. split; [now apply loadUser_no_token|]. cbn. repeat split. assumption.
Qed.



(** ** What a session does to the storage *)

Lemma storage_kept_refl (ls : gmap string string) : storage_kept ls ls.
Proof. intros k _. now left. Qed.

Lemma storage_kept_trans (a b c : gmap string string) :
  storage_kept a b -> storage_kept b c -> storage_kept a c.
Proof.
  intros Hab Hbc k Hk.
  destruct (Hbc k Hk) as [Hc | [Hr Hc]].
  - rewrite Hc. apply Hab, Hk.
  - right. now split.
Qed.

Lemma invoke_storage (ep : Endpoint) (o : FetchOutcome) (e : Env) :
  storage_kept (localStorage e) (localStorage (snd (invoke ep o e)))
  /\ browser (snd (invoke ep o e)) = browser e.
Proof.
  destruct (invoke_sends ep o e) as (path & options & r & e' & Hi & _ & Hb & He).
  rewrite Hi. cbn [snd]. split; [|assumption].
  destruct (writes_token ep) eqn:Hw.
  - destruct ep; try discriminate; cbn [invoke] in Hi.
    + unfold ApiClientTs.login in Hi.
      destruct (request_completes "/auth/login/" (post (Some credentials)) o e)
        as [r0 Hr].
      unfold bind at 1 in Hi. rewrite Hr in Hi. cbn iota in Hi.
      destruct (truthy (opt_chain (opt_chain (Response.data r0) p_tokens) p_access)).
      * unfold ApiClientTs.setToken in Hi. unfold_storage. cbn in Hi.
        destruct (browser e) eqn:Hbe; cbn in Hi; rewrite ?Hbe in Hi; cbn in Hi;
          injection Hi as _ <-; cbn; intros k Hk; left;
          [now rewrite lookup_insert_ne by congruence | reflexivity].
      * unfold bind, ret in Hi. cbn in Hi. injection Hi as _ <-.
        apply storage_kept_refl.
    + unfold ApiClientTs.logout in Hi.
      destruct (request_completes "/auth/logout/" (post None) o e) as [r0 Hr].
      unfold bind at 1 in Hi. rewrite Hr in Hi. cbn iota in Hi.
      unfold ApiClientTs.clearToken in Hi. unfold_storage. cbn in Hi.
      destruct (browser e) eqn:Hbe; cbn in Hi; rewrite ?Hbe in Hi; cbn in Hi;
        injection Hi as _ <-; cbn; intros k Hk; left;
        [now rewrite lookup_delete_ne by congruence | reflexivity].
  - rewrite (He eq_refl). apply storage_kept_refl.
Qed.

Lemma logout_env (remote : AuthStore.ApiMethods) (w : AuthStore.World) :
  AuthStore.env (snd (AuthStore.logout remote w))
  = snd (AuthStore.api_logout remote (AuthStore.env w)).
Proof.
  unfold AuthStore.logout. unfold_store. cbn.
  now destruct (AuthStore.api_logout remote (AuthStore.env w)) as [[r | x] e'].
Qed.

Lemma run_action_storage (a : Action) (o : FetchOutcome) (w : AuthStore.World) :
  storage_kept (localStorage (AuthStore.env w))
    (localStorage (AuthStore.env (run_action (apiClient o) a w)))
  /\ browser (AuthStore.env (run_action (apiClient o) a w))
     = browser (AuthStore.env w).
Proof.
  destruct a; cbn [run_action].
  - destruct (login_register_settle (apiClient o) credentials w)
      as [(b & w' & Hw & He & _) _].
    rewrite Hw. cbn [snd]. rewrite He.
    exact (invoke_storage (EpLogin credentials) o (AuthStore.env w)).
  - destruct (login_register_settle (apiClient o) userData w)
      as [_ (b & w' & Hw & He & _)].
    rewrite Hw. cbn [snd]. rewrite He.
    exact (invoke_storage (EpRegister userData) o (AuthStore.env w)).
  - rewrite logout_env.
    exact (invoke_storage EpLogout o (AuthStore.env w)).
  - destruct (browser (AuthStore.env w)) eqn:Hb.
    + destruct (loadUser_settles w o Hb) as (w' & Hw & _ & _ & Hb' & Hcase).
      rewrite Hw. cbn [snd]. split; [|assumption].
      destruct (truthy (stored_token (AuthStore.env w))).
      * destruct Hcase as [_ Hcase]. destruct (truthy (delivered o)).
        -- destruct Hcase as [-> _]. apply storage_kept_refl.
        -- destruct Hcase as [-> _]. intros k Hk.
           destruct (decide (k = "refresh_token")) as [-> | Hne].
           ++ right. split; [reflexivity | apply lookup_delete_eq].
           ++ left. rewrite lookup_delete_ne by congruence.
              now rewrite lookup_delete_ne by congruence.
      * destruct Hcase as [-> _]. apply storage_kept_refl.
    + destruct (loadUser_no_window (apiClient o) w Hb) as [x ->].
      cbn. split; [apply storage_kept_refl | assumption].
  - destruct (updateProfile_settles (apiClient o) userData w)
      as (b & w' & Hw & He & _).
    rewrite Hw. cbn [snd]. rewrite He.
    exact (invoke_storage (EpUpdateProfile userData) o (AuthStore.env w)).
  - cbn. split; [apply storage_kept_refl | reflexivity].
Qed.

(** X15.  Over a whole session of store operations against [api.ts], whatever
    the network answers: no key of the storage other than [access_token]
    and [refresh_token] is touched, and [refresh_token] is never written --
    it is at most removed, so the refresh token a login receives is never
    kept. *)
Theorem session_storage_frame (steps : list (Action * FetchOutcome))
    (w : AuthStore.World) (k : string) :
  String.eqb k "access_token" = false ->
  String.eqb k "refresh_token" = false ->
  let ls := localStorage (AuthStore.env w) in
  let ls' := localStorage (AuthStore.env (run_session steps w)) in
  ls' !! k = ls !! k
  /\ (ls' !! "refresh_token" = ls !! "refresh_token"
      \/ ls' !! "refresh_token" = None).
Proof.
  intros Hk Hne. apply String.eqb_neq in Hk, Hne. cbn zeta.
  assert (Hkept : storage_kept (localStorage (AuthStore.env w))
                    (localStorage (AuthStore.env (run_session steps w)))).
  { revert w. induction steps as [| [a o] rest IH]; intros w.
    - apply storage_kept_refl.
    - unfold run_session. cbn [fold_left fst snd].
      eapply storage_kept_trans; [apply (run_action_storage a o w) | apply IH]. }
  split.
  - destruct (Hkept k Hk) as [H | [H _]]; [assumption | contradiction].
  - destruct (Hkept "refresh_token") as [H | [_ H]]; [discriminate | now left | now right].
Qed.

Lemma session_storage_frame_witness :
  let w := boot true {[ "theme" := "mocha"; "refresh_token" := "old" ]} in
  let steps := [(Login Scenario.credentials,
                 FetchResponds 200 (Parsed Scenario.auth_body));
                (Logout, Scenario.unreachable)] in
  let ls := localStorage (AuthStore.env w) in
  let ls' := localStorage (AuthStore.env (run_session steps w)) in
  ls' !! "theme" = ls !! "theme"
  /\ (ls' !! "refresh_token" = ls !! "refresh_token"
      \/ ls' !! "refresh_token" = None).
Proof.
  apply (session_storage_frame
           [(Login Scenario.credentials,
             FetchResponds 200 (Parsed Scenario.auth_body));
            (Logout, Scenario.unreachable)]
           (boot true {[ "theme" := "mocha"; "refresh_token" := "old" ]})
           "theme"); reflexivity.
Defined.

(** ** Sessions against [api.ts] *)










(** * The pages that call in *)

(** X19.  The dashboard's mount effect against [api.ts] never throws, in the
    browser or outside it.  Where there is no truthy token, or no
    [window], it leaves the world as it is -- the store is not even reset;
    otherwise it is [loadUser]. *)
Theorem restoreSession_outcome (w : AuthStore.World) (o : FetchOutcome) :
  exists w',
    Pages.restoreSession (apiClient o) w = (Normal tt, w')
    /\ if browser (AuthStore.env w) && truthy (stored_token (AuthStore.env w))
       then AuthStore.loadUser (apiClient o) w = (Normal tt, w')
       else w' = w.
Proof.
  unfold Pages.restoreSession, stored_token. unfold_store. unfold_storage.
  destruct w as [[b c ls net] st asg ntf tst]. cbn -[AuthStore.loadUser].
  destruct b; cbn -[AuthStore.loadUser]; [|eexists; split; reflexivity].
  destruct (truthy match ls !! "access_token" with
                   | Some s => JStr s
                   | None => JNull
                   end) eqn:Ht; cbn -[AuthStore.loadUser];
    [|eexists; split; reflexivity].
  destruct (loadUser_settles
              {| AuthStore.env := {| browser := true; client := c;
                                     localStorage := ls; network := net |};
                 AuthStore.state := st; AuthStore.assigned := asg;
                 AuthStore.notified := ntf; AuthStore.toasts := tst |}
              o eq_refl) as (w' & Hw & _).
  exists w'. now rewrite Hw.
Qed.


(** * The second copy of the request primitive *)





(** * The validation schemas *)

Section RegexCorrect.

Import Regex.

Lemma nullable_matches (r : Re) : nullable r = true <-> Matches r [].
Proof.
  split.
  - induction r; cbn; intros H; try discriminate.
    + constructor.
    + apply andb_true_iff in H as [H1 H2].
      change (@nil ascii) with (@nil ascii ++ @nil ascii)%list.
      constructor; auto.
    + apply orb_true_iff in H as [H | H]; [apply MAltL | apply MAltR]; auto.
    + constructor.
  - intros H. remember [] as w eqn:Hw. induction H; cbn; try reflexivity.
    + discriminate.
    + apply app_eq_nil in Hw as [-> ->]. now rewrite IHMatches1, IHMatches2.
    + now rewrite IHMatches.
    + rewrite IHMatches by assumption. apply orb_true_r.
Qed.

Lemma cat_inv (r1 r2 : Re) (w : list ascii) :
  Matches (Cat r1 r2) w ->
  exists w1 w2, w = (w1 ++ w2)%list /\ Matches r1 w1 /\ Matches r2 w2.
Proof. intros H. inversion H; subst. eauto. Qed.

Lemma star_cons_inv (r : Re) (w : list ascii) :
  Matches (Star r) w -> w <> [] ->
  exists c w1 w2, w = (c :: w1 ++ w2)%list
                  /\ Matches r (c :: w1) /\ Matches (Star r) w2.
Proof.
  intros H. remember (Star r) as sr eqn:Hsr. induction H; try discriminate.
  - congruence.
  - injection Hsr as ->. intros Hne.
    destruct w1 as [| c w1].
    + cbn in *. now apply IHMatches2.
    + exists c, w1, w2. repeat split; assumption.
Qed.

Lemma after_matches (r : Re) (c : ascii) (w : list ascii) :
  Matches r (c :: w) <-> exists r', In r' (after c r) /\ Matches r' w.
Proof.
  revert w. induction r; intros w; cbn.
  - split; [intros H; inversion H | intros (r' & [] & _)].
  - split.
    + intros H. inversion H; subst. rewrite H2. exists Eps. split; [now left | constructor].
    + intros (r' & Hin & Hm). destruct (p c) eqn:Hp; [|destruct Hin].
      destruct Hin as [<- | []]. inversion Hm; subst. now constructor.
  - split.
    + intros H. apply cat_inv in H as (w1 & w2 & Heq & H1 & H2).
      destruct w1 as [| c1 w1]; cbn in *.
      * subst w2. apply IHr2 in H2 as (r' & Hin & Hm).
        exists r'. split; [|assumption].
        apply in_or_app. right.
        apply nullable_matches in H1. now rewrite H1.
      * injection Heq as <- ->.
        apply IHr1 in H1 as (r' & Hin & Hm).
        exists (Cat r' r2). split; [|now constructor].
        apply in_or_app. left. apply in_map_iff. eauto.
    + intros (r' & Hin & Hm). apply in_app_or in Hin as [Hin | Hin].
      * apply in_map_iff in Hin as (r1' & <- & Hin).
        apply cat_inv in Hm as (w1 & w2 & -> & H1 & H2).
        change (c :: w1 ++ w2)%list with ((c :: w1) ++ w2)%list.
        constructor; [|assumption]. apply IHr1. eauto.
      * destruct (nullable r1) eqn:Hn; [|destruct Hin].
        change (c :: w)%list with ([] ++ c :: w)%list.
        constructor; [now apply nullable_matches|]. apply IHr2. eauto.
  - split.
    + intros H. inversion H; subst.
      * apply IHr1 in H3 as (r' & Hin & Hm). exists r'. split; [|assumption].
        apply in_or_app. now left.
      * apply IHr2 in H3 as (r' & Hin & Hm). exists r'. split; [|assumption].
        apply in_or_app. now right.
    + intros (r' & Hin & Hm). apply in_app_or in Hin as [Hin | Hin].
      * apply MAltL, IHr1. eauto.
      * apply MAltR, IHr2. eauto.
  - split.
    + intros H. apply star_cons_inv in H as (c' & w1 & w2 & Heq & H1 & H2);
        [|discriminate].
      injection Heq as <- ->.
      apply IHr in H1 as (r' & Hin & Hm).
      exists (Cat r' (Star r)). split; [|now constructor].
      apply in_map_iff. eauto.
    + intros (r' & Hin & Hm). apply in_map_iff in Hin as (r0' & <- & Hin).
      apply cat_inv in Hm as (w1 & w2 & -> & H1 & H2).
      change (c :: w1 ++ w2)%list with ((c :: w1) ++ w2)%list.
      constructor; [|assumption]. apply IHr. eauto.
Qed.

Lemma step_matches (c : ascii) (rs : list Re) (w : list ascii) :
  (exists r, In r rs /\ Matches r (c :: w))
  <-> exists r', In r' (step c rs) /\ Matches r' w.
Proof.
  unfold step. split.
  - intros (r & Hin & Hm). apply after_matches in Hm as (r' & Hin' & Hm').
    exists r'. split; [|assumption]. apply in_flat_map. eauto.
  - intros (r' & Hin & Hm). apply in_flat_map in Hin as (r & Hin & Hin').
    exists r. split; [assumption|]. apply after_matches. eauto.
Qed.

Lemma run_matches (w : list ascii) (rs : list Re) :
  existsb nullable (fold_left (fun rs c => step c rs) w rs) = true
  <-> exists r, In r rs /\ Matches r w.
Proof.
  revert rs. induction w as [| c w IH]; intros rs; cbn.
  - rewrite existsb_exists. split; intros (r & Hin & H); exists r;
      (split; [assumption|]); now apply nullable_matches.
  - rewrite IH. symmetry. apply step_matches.
Qed.

(** The matcher decides the language of the expression. *)
Lemma full_match_spec (r : Re) (s : string) :
  full_match r s = true <-> Matches r (Text.chars s).
Proof.
  unfold full_match. rewrite run_matches. split.
  - intros (r' & [<- | []] & H). exact H.
  - intros H. exists r. split; [now left | exact H].
Qed.

Lemma lookahead_from_spec (w : list ascii) (rs : list Re) :
  lookahead_from rs w = true
  <-> exists r pre suf, In r rs /\ w = (pre ++ suf)%list /\ Matches r pre.
Proof.
  revert rs. induction w as [| c w IH]; intros rs; cbn.
  - rewrite orb_false_r, existsb_exists. split.
    + intros (r & Hin & H). exists r, [], []. repeat split; [assumption|].
      now apply nullable_matches.
    + intros (r & pre & suf & Hin & Heq & H).
      symmetry in Heq. apply app_eq_nil in Heq as [-> ->].
      exists r. split; [assumption|]. now apply nullable_matches.
  - rewrite orb_true_iff, existsb_exists, IH. split.
    + intros [(r & Hin & H) | (r' & pre & suf & Hin & Heq & H)].
      * exists r, [], (c :: w). repeat split; [assumption|].
        now apply nullable_matches.
      * destruct (proj2 (step_matches c rs pre)) as (r & Hin' & Hm); [eauto|].
        exists r, (c :: pre), suf. subst w. repeat split; assumption.
    + intros (r & pre & suf & Hin & Heq & H). destruct pre as [| c' pre].
      * left. exists r. split; [assumption|]. now apply nullable_matches.
      * injection Heq as <- ->. right.
        destruct (proj1 (step_matches c rs pre)) as (r' & Hin' & Hm); [eauto|].
        exists r', pre, suf. repeat split; assumption.
Qed.

Lemma lookahead_spec (r : Re) (s : string) :
  lookahead r s = true
  <-> exists pre suf, Text.chars s = (pre ++ suf)%list /\ Matches r pre.
Proof.
  unfold lookahead. rewrite lookahead_from_spec. split.
  - intros (r' & pre & suf & [<- | []] & Heq & H). eauto.
  - intros (pre & suf & Heq & H). exists r, pre, suf. repeat split; auto. now left.
Qed.

End RegexCorrect.

Section Schemas.

Import Regex.

Lemma chars_app (a b : string) :
  Text.chars (a ++ b) = (Text.chars a ++ Text.chars b)%list.
Proof.
  unfold Text.chars. induction a as [| c a IH]; [reflexivity|].
  change (String c a ++ b) with (String c (a ++ b)). cbn. f_equal. exact IH.
Qed.

Lemma chars_length (s : string) : length (Text.chars s) = String.length s.
Proof.
  unfold Text.chars. induction s as [| c s IH]; cbn; [reflexivity|].
  f_equal. exact IH.
Qed.

Lemma chars_of_list (cs : list ascii) : Text.chars (string_of_list_ascii cs) = cs.
Proof. apply list_ascii_of_string_of_list_ascii. Qed.

Lemma of_chars (s : string) : string_of_list_ascii (Text.chars s) = s.
Proof. apply string_of_list_ascii_of_string. Qed.

Lemma class_inv (p : ascii -> bool) (w : list ascii) :
  Matches (Class p) w -> exists c, w = [c] /\ p c = true.
Proof. intros H. inversion H; subst. eauto. Qed.

Lemma is_char_eq (x c : ascii) : Text.is_char x c = true -> c = x.
Proof.
  unfold Text.is_char, Text.code. intros H. apply Nat.eqb_eq in H.
  rewrite <- (ascii_nat_embedding c), H. apply ascii_nat_embedding.
Qed.

Lemma of_list_app (l1 l2 : list ascii) :
  string_of_list_ascii (l1 ++ l2)
  = string_of_list_ascii l1 ++ string_of_list_ascii l2.
Proof.
  induction l1 as [| c l1 IH]; [reflexivity|].
  cbn [app string_of_list_ascii]. rewrite IH. reflexivity.
Qed.

Lemma star_class (p : ascii -> bool) (w : list ascii) :
  Matches (Star (Class p)) w <-> forallb p w = true.
Proof.
  split.
  - intros H. remember (Star (Class p)) as r eqn:Hr.
    induction H; try discriminate; [reflexivity|].
    injection Hr as ->. apply class_inv in H as (c & -> & Hc). cbn.
    rewrite Hc. now apply IHMatches2.
  - induction w as [| c w IH]; cbn; intros H; [constructor|].
    apply andb_true_iff in H as [Hc Hw].
    change (c :: w)%list with ([c] ++ w)%list.
    constructor; [now constructor | auto].
Qed.

Lemma plus_class (p : ascii -> bool) (w : list ascii) :
  Matches (Plus (Class p)) w <-> w <> [] /\ forallb p w = true.
Proof.
  unfold Plus. split.
  - intros H. apply cat_inv in H as (w1 & w2 & -> & H1 & H2).
    apply class_inv in H1 as (c & -> & Hc). apply star_class in H2. cbn.
    split; [discriminate|]. now rewrite Hc, H2.
  - intros [Hne H]. destruct w as [| c w]; [contradiction|]. cbn in H.
    apply andb_true_iff in H as [Hc Hw].
    change (c :: w)%list with ([c] ++ w)%list.
    constructor; [now constructor | now apply star_class].
Qed.

(** X23.  A username passes the registration schema exactly when it has between
    3 and 30 code units, each a letter, a digit, or one of [_], [.], [-]. *)
Theorem register_username_spec (username : string) :
  Validations.register_username username = true
  <-> (3 <= String.length username <= 30)%nat
      /\ forallb Validations.username_char (Text.chars username) = true.
Proof.
  unfold Validations.register_username.
  rewrite !andb_true_iff, !Nat.leb_le, full_match_spec.
  unfold Validations.username_re. rewrite plus_class. split.
  - intros [[[_ H3] H30] [_ Hc]]. repeat split; assumption.
  - intros [[H3 H30] Hc]. repeat split; try lia; try assumption.
    intros Hnil. rewrite <- chars_length, Hnil in H3. cbn in H3. lia.
Qed.

Lemma email_re_spec (value : string) :
  full_match Validations.email_re value = true
  <-> exists a b c : string,
        value = a ++ "@" ++ b ++ "." ++ c
        /\ a <> "" /\ b <> "" /\ c <> ""
        /\ forallb Validations.email_char (Text.chars (a ++ b ++ c)) = true.
Proof.
  rewrite full_match_spec. unfold Validations.email_re. split.
  - intros H.
    apply cat_inv in H as (wa & w1 & Hv & Ha & H).
    apply cat_inv in H as (wat & w2 & -> & Hat & H).
    apply cat_inv in H as (wb & w3 & -> & Hb & H).
    apply cat_inv in H as (wdot & wc & -> & Hdot & Hc).
    apply class_inv in Hat as (x & -> & Hx). apply is_char_eq in Hx. subst x.
    apply class_inv in Hdot as (y & -> & Hy). apply is_char_eq in Hy. subst y.
    apply plus_class in Ha as [Hane Ha], Hb as [Hbne Hb], Hc as [Hcne Hc].
    exists (string_of_list_ascii wa), (string_of_list_ascii wb),
           (string_of_list_ascii wc).
    split.
    { rewrite <- (of_chars value), Hv. rewrite !of_list_app. reflexivity. }
    split; [destruct wa; [contradiction | discriminate]|].
    split; [destruct wb; [contradiction | discriminate]|].
    split; [destruct wc; [contradiction | discriminate]|].
    rewrite !chars_app, !chars_of_list, !forallb_app, Ha, Hb, Hc. reflexivity.
  - intros (a & b & c & -> & Hane & Hbne & Hcne & Hall).
    rewrite !chars_app, !forallb_app, !andb_true_iff in Hall.
    destruct Hall as (Ha & Hb & Hc).
    rewrite !chars_app. cbn.
    constructor.
    { apply plus_class. split; [destruct a; [contradiction | discriminate] | exact Ha]. }
    change ("@"%char :: Text.chars b ++ "."%char :: Text.chars c)%list
      with (["@"%char] ++ (Text.chars b ++ ["."%char] ++ Text.chars c))%list.
    constructor; [now constructor|].
    constructor.
    { apply plus_class. split; [destruct b; [contradiction | discriminate] | exact Hb]. }
    constructor; [now constructor|].
    apply plus_class. split; [destruct c; [contradiction | discriminate] | exact Hc].
Qed.

(** X24.  The e-mail shape of the login schema, word by word: a non-empty local
    part, one [@], and after it a part with a dot that is neither its first
    nor its last code unit; no white space and no second [@] anywhere. *)
Theorem email_shape (value : string) :
  full_match Validations.email_re value = true
  <-> exists a b c : string,
        value = a ++ "@" ++ b ++ "." ++ c
        /\ a <> "" /\ b <> "" /\ c <> ""
        /\ forallb Validations.email_char (Text.chars (a ++ b ++ c)) = true.
Proof. exact (email_re_spec value). Qed.

(** X25.  The login schema accepts a pair exactly when the password has at
    least 6 code units and the login is either a non-empty word over
    letters, digits, [_], [.], [-], or has the e-mail shape.  So a login
    with white space in it never passes, and one with an [@] passes only as
    an e-mail. *)
Theorem loginSchema_spec (login password : string) :
  Validations.loginSchema login password = true
  <-> (6 <= String.length password)%nat
      /\ ((login <> ""
           /\ forallb Validations.username_char (Text.chars login) = true)
          \/ exists a b c : string,
               login = a ++ "@" ++ b ++ "." ++ c
               /\ a <> "" /\ b <> "" /\ c <> ""
               /\ forallb Validations.email_char (Text.chars (a ++ b ++ c)) = true).
Proof.
  unfold Validations.loginSchema, Validations.login_refine.
  rewrite !andb_true_iff, orb_true_iff, !Nat.leb_le, email_re_spec, full_match_spec.
  unfold Validations.username_re. rewrite plus_class.
  assert (Hnil : Text.chars login <> [] <-> login <> "").
  { split; intros H E; apply H; [now subst | ].
    rewrite <- (of_chars login), E. reflexivity. }
  rewrite Hnil. split.
  - intros [[[_ Hshape] _] H6]. split; [assumption|].
    destruct Hshape as [He | Hu]; [now right | now left].
  - intros [H6 Hshape]. repeat split; try lia.
    + destruct Hshape as [[Hne _] | (a & b & c & -> & Hne & _)].
      * destruct login; [contradiction | cbn; lia].
      * rewrite <- chars_length, chars_app.
        destruct a; [contradiction | cbn; lia].
    + destruct Hshape as [Hu | He]; [now right | now left].
Qed.

Lemma first_line_app (w rest : list ascii) :
  forallb (fun c => negb (Text.is_line_terminator c)) w = true ->
  Text.first_line (w ++ rest) = (w ++ Text.first_line rest)%list.
Proof.
  induction w as [| c w IH]; cbn; [reflexivity|].
  intros H. apply andb_true_iff in H as [Hc Hw].
  apply negb_true_iff in Hc. rewrite Hc. now rewrite IH.
Qed.

Lemma first_line_prefix (cs : list ascii) :
  exists rest,
    cs = (Text.first_line cs ++ rest)%list
    /\ forallb (fun c => negb (Text.is_line_terminator c)) (Text.first_line cs) = true.
Proof.
  induction cs as [| c cs (rest & Heq & Hall)]; cbn.
  - now exists [].
  - destruct (Text.is_line_terminator c) eqn:Hc.
    + exists (c :: cs). split; reflexivity.
    + exists rest. cbn. rewrite Hc, Hall. split; [now rewrite <- Heq | reflexivity].
Qed.

(** [(?=.*[class])] holds at the start of a text exactly when its first
    line has a code unit of the class. *)
Lemma lookahead_first_line (p : ascii -> bool) (s : string) :
  (forall c, p c = true -> Text.is_line_terminator c = false) ->
  lookahead (Cat (Star dot) (Class p)) s = true
  <-> existsb p (Text.first_line (Text.chars s)) = true.
Proof.
  intros Hp. rewrite lookahead_spec. split.
  - intros (pre & suf & Heq & H).
    apply cat_inv in H as (w1 & w2 & -> & H1 & H2).
    apply class_inv in H2 as (c & -> & Hc). apply star_class in H1.
    rewrite Heq, <- app_assoc, first_line_app by exact H1. cbn.
    rewrite (Hp c Hc). rewrite existsb_app. cbn. rewrite Hc.
    now rewrite orb_true_r.
  - intros H. apply existsb_exists in H as (c & Hin & Hc).
    apply in_split in Hin as (w1 & w2 & Hsplit).
    destruct (first_line_prefix (Text.chars s)) as (rest & Heq & Hall).
    rewrite Hsplit, forallb_app in Hall. apply andb_true_iff in Hall as [Hw1 _].
    exists (w1 ++ [c])%list, (w2 ++ rest)%list. split.
    + rewrite Heq at 1. rewrite Hsplit, <- !app_assoc. reflexivity.
    + constructor; [now apply star_class | now constructor].
Qed.

(** X26.  A password passes the registration schema exactly when it has at
    least 8 code units and its first line -- what comes before any line
    feed or carriage return -- holds a lower-case letter, an upper-case
    letter and a digit.  Letters and digits after a line break do not
    count. *)
Theorem register_password_spec (password : string) :
  Validations.register_password password = true
  <-> (8 <= String.length password)%nat
      /\ existsb (Text.in_range "a"%char "z"%char)
           (Text.first_line (Text.chars password)) = true
      /\ existsb (Text.in_range "A"%char "Z"%char)
           (Text.first_line (Text.chars password)) = true
      /\ existsb (Text.in_range "0"%char "9"%char)
           (Text.first_line (Text.chars password)) = true.
Proof.
  assert (Hrange : forall lo hi c,
             (13 < Text.code lo)%nat ->
             Text.in_range lo hi c = true -> Text.is_line_terminator c = false).
  { intros lo hi c Hlo H. unfold Text.in_range, Text.is_line_terminator in *.
    cbn zeta. apply andb_true_iff in H as [H _]. apply Nat.leb_le in H.
    apply orb_false_iff. split; apply Nat.eqb_neq; lia. }
  unfold Validations.register_password, Validations.password_re_test.
  rewrite !andb_true_iff, !Nat.leb_le.
  rewrite !lookahead_first_line
    by (intros c; apply Hrange; apply Nat.ltb_lt; reflexivity).
  split.
  - intros [[_ H8] [[Hl Hu] Hd]]. repeat split; assumption.
  - intros (H8 & Hl & Hu & Hd). repeat split; try assumption; lia.
Qed.

(** The registration schema as a whole, given the library's test of the
    [email] field: it passes exactly when the username and the password
    pass their rules, the e-mail is non-empty and passes the library's
    test, and the confirmation equals the password. *)
Theorem registerSchema_spec (zod_email : string -> bool)
    (username email password password_confirm : string) :
  Validations.registerSchema zod_email username email password password_confirm = true
  <-> Validations.register_username username = true
      /\ email <> "" /\ zod_email email = true
      /\ Validations.register_password password = true
      /\ password_confirm = password.
Proof.
  unfold Validations.registerSchema.
  rewrite !andb_true_iff, !Nat.leb_le, String.eqb_eq. split.
  - intros [[[[Hu [He Hz]] Hp] Hc] Heq]. repeat split; try assumption.
    + intros ->. cbn in He. lia.
    + now symmetry.
  - intros (Hu & He & Hz & Hp & ->). repeat split; try assumption.
    + destruct email; [contradiction | cbn; lia].
    + unfold Validations.register_password in Hp.
      rewrite !andb_true_iff, !Nat.leb_le in Hp. lia.
Qed.

End Schemas.

(** * The poll pages *)

Section Winner.

Import Results.

Lemma fold_better (rest pre post : list PollOption) (acc : PollOption) :
  Forall (fun o => tally o <= tally acc) pre ->
  Forall (fun o => tally o < tally acc) post ->
  exists pre' post',
    (pre ++ acc :: post ++ rest)%list
    = (pre' ++ fold_left better rest acc :: post')%list
    /\ Forall (fun o => tally o <= tally (fold_left better rest acc)) pre'
    /\ Forall (fun o => tally o < tally (fold_left better rest acc)) post'.
Proof.
  revert pre post acc. induction rest as [| y rest IH]; intros pre post acc Hpre Hpost.
  - exists pre, post. rewrite app_nil_r. repeat split; assumption.
  - cbn [fold_left]. unfold better at 2 4 6.
    destruct (tally y <? tally acc) eqn:Hy.
    + apply Z.ltb_lt in Hy.
      destruct (IH pre (post ++ [y])%list acc Hpre) as (pre' & post' & Heq & H1 & H2).
      { apply Forall_app. split; [assumption|]. now constructor. }
      exists pre', post'. rewrite <- Heq, <- app_assoc. repeat split; assumption.
    + apply Z.ltb_ge in Hy.
      destruct (IH (pre ++ acc :: post)%list [] y) as (pre' & post' & Heq & H1 & H2).
      { apply Forall_app. split.
        - eapply Forall_impl; [exact Hpre|]. cbn. intros; lia.
        - constructor; [lia|]. eapply Forall_impl; [exact Hpost|]. cbn. intros; lia. }
      { constructor. }
      exists pre', post'. rewrite <- Heq, <- app_assoc. repeat split; assumption.
Qed.

(** X27.  [getWinner] in full.  Without a poll, or with [total_votes] zero, there
    is no winner, whatever the options say.  With a non-zero total and no
    options it throws.  Otherwise the winner is one of the options, no
    option has more votes, and among options with the same, highest count
    it is the last one: every option after it has strictly fewer votes. *)
Theorem getWinner_outcome (poll : option Poll) :
  match poll with
  | None => getWinner poll = Normal None
  | Some p =>
      if total_votes p =? 0 then getWinner poll = Normal None
      else match poll_options p with
           | [] => exists x, getWinner poll = Throw x
           | _ :: _ =>
               exists w before after,
                 getWinner poll = Normal (Some w)
                 /\ poll_options p = (before ++ w :: after)%list
                 /\ Forall (fun o => tally o <= tally w) before
                 /\ Forall (fun o => tally o < tally w) after
           end
  end.
Proof.
  destruct poll as [p|]; [|reflexivity]. unfold getWinner.
  destruct (total_votes p =? 0); [reflexivity|].
  destruct (poll_options p) as [| x rest]; cbn [reduce]; [eauto|].
  destruct (fold_better rest [] [] x) as (pre' & post' & Heq & H1 & H2);
    [constructor | constructor |].
  exists (fold_left better rest x), pre', post'. repeat split; assumption.
Qed.

End Winner.

Section CreateModal.

Import PollCreateModal.

Lemma without_length (index : nat) (opts : list string) :
  (index < length opts)%nat -> length (without index opts) = pred (length opts).
Proof.
  unfold without. rewrite length_map.
  assert (H : forall (k : nat) (l : list string) (i : nat),
             (i < length l)%nat ->
             length (List.filter (fun p => negb (fst p =? k + i)%nat)
                       (combine (seq k (length l)) l)) = pred (length l)).
  { intros k l. revert k. induction l as [| x l IH]; intros k i Hi; cbn in *; [lia|].
    destruct i as [| i].
    - rewrite Nat.add_0_r, Nat.eqb_refl. cbn.
      clear IH Hi. 
      assert (Hkeep : forall (m : nat) (l' : list string),
                 (k < m)%nat ->
                 List.filter (fun p => negb (fst p =? k)%nat) (combine (seq m (length l')) l')
                 = combine (seq m (length l')) l').
      { intros m l'. revert m. induction l' as [| y l' IH']; intros m Hm; cbn; [reflexivity|].
        destruct (Nat.eqb_spec m k); [lia|]. cbn. now rewrite IH' by lia. }
      rewrite Hkeep by lia. rewrite length_combine, length_seq. lia.
    - destruct (Nat.eqb_spec k (k + S i)); [lia|]. cbn.
      replace (k + S i)%nat with (S k + i)%nat by lia.
      rewrite IH by lia. lia. }
  intros Hi. exact (H 0%nat opts index Hi).
Qed.

Lemma without_length_out (index : nat) (opts : list string) :
  (length opts <= index)%nat -> without index opts = opts.
Proof.
  unfold without. intros Hi.
  assert (H : forall (k : nat) (l : list string),
             (k + length l <= index)%nat ->
             map snd (List.filter (fun p => negb (fst p =? index)%nat)
                        (combine (seq k (length l)) l)) = l).
  { intros k l. revert k. induction l as [| x l IH]; intros k Hk; cbn in *; [reflexivity|].
    destruct (Nat.eqb_spec k index); [lia|]. cbn. now rewrite IH by lia. }
  now apply (H 0%nat).
Qed.

(** X28.  The option list keeps between 2 and 10 entries, whatever the user
    clicks: adding stops at 10, removing stops at 2 (and an index outside
    the list removes nothing), and typing into an entry keeps the count. *)
Theorem option_list_bounds (es : list Edit) (opts opts' : list string) :
  (2 <= length opts <= 10)%nat ->
  edits es opts = Some opts' ->
  (2 <= length opts' <= 10)%nat.
Proof.
  revert opts. induction es as [| e es IH]; intros opts Hb Hrun; cbn in Hrun.
  - now injection Hrun as <-.
  - destruct (edit e opts) as [opts1|] eqn:He; [|discriminate].
    apply (IH opts1); [|assumption]. clear IH Hrun.
    destruct e as [| index | index value]; cbn [edit] in He.
    + injection He as <-. unfold addOption.
      destruct (Nat.ltb_spec (length opts) 10); [|assumption].
      rewrite length_app. cbn. lia.
    + injection He as <-. unfold removeOption.
      destruct (Nat.ltb_spec 2 (length opts)); [|assumption].
      destruct (Nat.lt_ge_cases index (length opts)).
      * rewrite without_length by assumption. lia.
      * rewrite without_length_out by assumption. lia.
    + destruct (index <? length opts)%nat; [|discriminate].
      injection He as <-. unfold updateOption. now rewrite length_insert.
Qed.

Lemma option_list_bounds_witness :
  (2 <= length (A:=string) [""; ""] <= 10)%nat
  /\ edits [Add; Update 2 "tea"; Remove 0; Remove 0; Add] [""; ""] = Some [""; "tea"; ""]
  /\ (2 <= length (A:=string) [""; "tea"; ""] <= 10)%nat.
Proof.
  split; [cbn; lia|]. split; [reflexivity|].
  apply (option_list_bounds [Add; Update 2 "tea"; Remove 0; Remove 0; Add]
           [""; ""] [""; "tea"; ""]); [cbn; lia | reflexivity].
Defined.

(** X29.  Nothing is sent for a form that is not ready.  With a blank title, or
    with fewer than two options that are not blank, the submit handler
    only sets the message -- the one about the title first -- and leaves
    the fields, the loading flag, the network and both callbacks alone. *)
Theorem handleSubmit_rejects (o : FetchOutcome) (m : Modal) :
  Text.blank (title (formData m))
  || (length (validOptions (options m)) <? 2)%nat = true ->
  handleSubmit o m
  = (Normal tt,
     {| formData := formData m; options := options m; isLoading := isLoading m;
        error := JStr (if Text.blank (title (formData m))
                       then "Poll title is required"
                       else "At least 2 options are required");
        env := env m; created := created m; closed := closed m |}).
Proof.
  unfold handleSubmit, setError, validOptions. unfold_monad. cbn.
  destruct (Text.blank (title (formData m))); cbn; [reflexivity|].
  now intros ->.
Qed.

Lemma handleSubmit_rejects_witness :
  let m := {| formData := {| title := "   "; description := ""; is_public := true;
                             expires_at := "" |};
              options := ["tea"; "coffee"]; isLoading := false; error := JNull;
              env := AuthStore.env Scenario.returning; created := []; closed := 0 |} in
  handleSubmit Scenario.unreachable m
  = (Normal tt,
     {| formData := formData m; options := options m; isLoading := isLoading m;
        error := JStr (if Text.blank (title (formData m))
                       then "Poll title is required"
                       else "At least 2 options are required");
        env := env m; created := created m; closed := closed m |}).
Proof.
  apply (handleSubmit_rejects Scenario.unreachable
           {| formData := {| title := "   "; description := ""; is_public := true;
                             expires_at := "" |};
              options := ["tea"; "coffee"]; isLoading := false; error := JNull;
              env := AuthStore.env Scenario.returning; created := []; closed := 0 |}).
  reflexivity.
Defined.



End CreateModal.
